(** * MathForge: a verification development for [src/main.py]

    The service is a Flask application whose handlers read a JSON body,
    convert the numeric fields with [float(...)], compute with Python
    floats (IEEE-754 binary64) and Python integers, and answer with
    [jsonify(...)].  This file embeds the handlers as Rocq functions:

    - Python floats are [spec_float] values of the binary64 format
      (precision 53, [emax] 1024), with the operations of
      [Corelib.Floats.SpecFloat] and the exceptions Python adds on top
      ([ZeroDivisionError] for [/], [OverflowError] for [**] and for
      [int -> float], [ValueError] for [math.sqrt]); the C library
      function [pow] behind [**] is a parameter, and so are the builtins
      [sum] and [sorted] of the statistics handler;
    - Python integers are [Z], strings are ASCII strings;
    - exceptions are an error monad, and [handle_errors] is the function
      that turns a raised exception into the 400/500 reply;
    - the audit log [query_history] is a list that [log_query],
      [clear_history] and [get_history] take and give back;
    - the random module is an oracle of raw draws.

    Presentation-only fields (the [timestamp], the [equation] and [steps]
    strings, the quiz [question] text, the [message] of a verdict) are
    not part of the model, and neither is the [log_query] call that ends
    a successful handler. *)

From Stdlib Require Import ZArith Lia List Bool String Ascii.
From Stdlib Require Import Floats.SpecFloat.
From Stdlib Require Import Rbase Rfunctions Lra.
From stdpp Require Import base list.
Import ListNotations.

Local Open Scope Z_scope.

(** ** Exceptions and the error monad *)

Inductive exn :=
| ValueError
| ZeroDivisionError
| OverflowError
| IndexError
| KeyError
| TypeError.

Inductive result (A : Type) :=
| Ok (a : A)
| Raise (e : exn).
Arguments Ok {A} a.
Arguments Raise {A} e.

#[global] Instance result_ret : MRet result := fun A a => Ok a.

#[global] Instance result_bind : MBind result := fun A B k r =>
  match r with
  | Ok a => k a
  | Raise e => Raise e
  end.

(** ** Python floats *)

Module PyFloat.

Definition prec : Z := 53.
Definition emax : Z := 1024.

Abbreviation float := spec_float.

Definition fadd : float -> float -> float := SFadd prec emax.
Definition fsub : float -> float -> float := SFsub prec emax.
Definition fmul : float -> float -> float := SFmul prec emax.
Definition fsqrt : float -> float := SFsqrt prec emax.
Definition fneg : float -> float := SFopp.
Definition fabs : float -> float := SFabs.
Definition feq : float -> float -> bool := SFeqb.
Definition flt : float -> float -> bool := SFltb.
Definition fle : float -> float -> bool := SFleb.
Definition fgt (x y : float) : bool := SFltb y x.

Definition is_nan (x : float) : bool :=
  match x with S754_nan => true | _ => false end.

Definition is_inf (x : float) : bool :=
  match x with S754_infinity _ => true | _ => false end.

Definition is_finite (x : float) : bool :=
  match x with
  | S754_zero _ | S754_finite _ _ _ => true
  | _ => false
  end.

Definition sign_of (x : float) : bool :=
  match x with
  | S754_zero s | S754_infinity s | S754_finite s _ _ => s
  | S754_nan => false
  end.

(** The double nearest to the integer [z] (ties to even); it is an
    infinity when [z] is out of range. *)
Definition nearest_Z (z : Z) : float := binary_normalize prec emax z 0 false.

(** The double nearest to the rational [n / d], for [d > 0]: the
    correctly rounded quotient of two exact integers.  This is the value
    of a decimal literal. *)
Definition nearest_ratio (n : Z) (d : positive) : float :=
  match n with
  | Z0 => S754_zero false
  | Zpos p => SFdiv prec emax (S754_finite false p 0) (S754_finite false d 0)
  | Zneg p => SFdiv prec emax (S754_finite true p 0) (S754_finite false d 0)
  end.

Definition zero : float := S754_zero false.
Definition one : float := nearest_Z 1.
Definition two : float := nearest_Z 2.
Definition three : float := nearest_Z 3.
Definition four : float := nearest_Z 4.
Definition six : float := nearest_Z 6.

(** [float(n)] for a Python integer: [OverflowError] ("int too large to
    convert to float") when the nearest double is not finite. *)
Definition of_int (z : Z) : result float :=
  let f := nearest_Z z in
  if is_inf f then Raise OverflowError else Ok f.

(** [x / y] on floats: [ZeroDivisionError] when [y == 0]. *)
Definition fdiv (x y : float) : result float :=
  if feq y zero then Raise ZeroDivisionError else Ok (SFdiv prec emax x y).

(** [x ** n] for a float [x] and a positive integer exponent, as
    [float_pow] computes it.  NaN, infinities and zeros are answered
    directly, and so is a base of magnitude 1; otherwise the sign is
    set aside and the platform function [pow] is called.  The platform
    function is a parameter, [libm_pow x n] standing for the C call
    [pow(x, (double) n)]: it is accurate to the last bit or so, and
    nothing below depends on how it rounds.  A result that is not
    finite raises [OverflowError]. *)
Section Power.
Variable libm_pow : float -> positive -> float.

Definition fpow (x : float) (n : positive) : result float :=
  let odd := Z.odd (Zpos n) in
  match x with
  | S754_nan => Ok S754_nan
  | S754_infinity s => Ok (S754_infinity (s && odd))
  | S754_zero s => Ok (S754_zero (s && odd))
  | S754_finite s m e =>
      let negate_result := s && odd in
      if feq (fabs x) one then Ok (if negate_result then fneg one else one)
      else
        let ix := libm_pow (fabs x) n in
        if is_inf ix then Raise OverflowError
        else Ok (if negate_result then fneg ix else ix)
  end.

End Power.

(** The correctly rounded power of a positive finite float, one
    possible platform function. *)
Definition pow_rounded (x : float) (n : positive) : float :=
  match x with
  | S754_finite _ m e => binary_round prec emax false (Pos.pow m n) (e * Zpos n)
  | _ => x
  end.

(** [math.sqrt(x)]: [ValueError] ("math domain error") for a negative
    argument, that is, whenever the result is NaN and the argument is
    not. *)
Definition math_sqrt (x : float) : result float :=
  let r := fsqrt x in
  if is_nan r && negb (is_nan x) then Raise ValueError else Ok r.

(** [round(x, nd)] for a float [x] and [0 <= nd] small ([nd] is 2 or 6
    in the program): NaN and infinities round to themselves; a finite
    [x] is first rounded to [nd] decimal places on its exact value,
    ties to even ([_Py_dg_dtoa] in mode 3), and the decimal string is
    read back as the nearest double ([_Py_dg_strtod]).  The sign is
    kept, so a small negative number rounds to [-0.0]. *)
Definition round_half_even (n : Z) (d : Z) : Z :=
  let q := n / d in
  let r := n mod d in
  match 2 * r ?= d with
  | Lt => q
  | Gt => q + 1
  | Eq => if Z.even q then q else q + 1
  end.

Definition round_nd (x : float) (nd : positive) : float :=
  match x with
  | S754_finite s m e =>
      if 0 <=? e then x
      else
        let k := round_half_even (Zpos m * 10 ^ Zpos nd) (2 ^ (- e)) in
        match k with
        | Zpos p =>
            SFdiv prec emax (S754_finite s p 0)
              (S754_finite false (Pos.pow 10 nd) 0)
        | _ => S754_zero s
        end
  | _ => x
  end.

Definition round6 (x : float) : float := round_nd x 6.
Definition round2 (x : float) : float := round_nd x 2.

(** Literals of the program. *)
Definition lit_0_5 : float := nearest_ratio 5 10.
Definition lit_0_01 : float := nearest_ratio 1 100.
(** [math.pi], the double 0x400921FB54442D18. *)
Definition math_pi : float := S754_finite false 7074237752028440 (-51).
(** [4/3]: true division of two integers, correctly rounded. *)
Definition four_thirds : float := nearest_ratio 4 3.

End PyFloat.

Import PyFloat.

(** ** Requests and replies

    A request body is a JSON object.  The model covers the bodies whose
    numeric fields, when present, are JSON numbers (an integer or a
    float) and whose [answer_id], when present, is a string; an absent
    field is [None] and takes the default that [data.get] names. *)

Inductive num :=
| NInt (z : Z)
| NFloat (f : float).

(** [float(v)] *)
Definition to_float (v : num) : result float :=
  match v with
  | NInt z => of_int z
  | NFloat f => Ok f
  end.

(** [float(data.get(key, dflt))] for an integer default. *)
Definition get_float (field : option num) (dflt : Z) : result float :=
  to_float (default (NInt dflt) field).

(** What a view function hands back to Flask: a JSON body with status
    200, a JSON error body with its status, [None] when the function
    falls off its end, or an exception that leaves the function. *)
Inductive reply (B : Type) :=
| Json (body : B)
| JsonError (status : Z) (error : string) (detail : option exn)
| ReturnedNone
| Uncaught (e : exn).
Arguments Json {B} body.
Arguments JsonError {B} status error detail.
Arguments ReturnedNone {B}.
Arguments Uncaught {B} e.

(** The decorator [handle_errors]: the wrapped function either returns
    or raises, and the three [except] clauses are tried in order. *)
Definition handle_errors {B} (r : result (reply B)) : reply B :=
  match r with
  | Ok x => x
  | Raise ValueError => JsonError 400 "Invalid input" (Some ValueError)
  | Raise ZeroDivisionError => JsonError 400 "Division by zero" None
  | Raise e => JsonError 500 "Internal server error" (Some e)
  end.

(** A view function without the decorator: its exception propagates. *)
Definition undecorated {B} (r : result (reply B)) : reply B :=
  match r with
  | Ok x => x
  | Raise e => Uncaught e
  end.

(** A reply that the service itself shaped as JSON: a success body or a
    structured error body with status 400 or 500. *)
Definition structured {B} (r : reply B) : Prop :=
  match r with
  | Json _ => True
  | JsonError st _ _ => st = 400 \/ st = 500
  | ReturnedNone | Uncaught _ => False
  end.

(** ** Audit log *)

Module AuditLog.
Section Log.
Context {I O : Type}.

Record entry := Entry {
  timestamp : string;
  endpoint : string;
  input : I;
  output : O
}.

Definition capacity : nat := 100.

(** [log_query]: append, then [pop(0)] once the length exceeds 100. *)
Definition log_query (ts endpoint : string) (data : I) (result : O)
    (query_history : list entry) : list entry :=
  let h := query_history ++ [Entry ts endpoint data result] in
  if (capacity <? length h)%nat then drop 1 h else h.

(** Appending entries one after the other; each carries its own
    timestamp, endpoint, input and output. *)
Definition append (e : entry) (h : list entry) : list entry :=
  log_query (timestamp e) (endpoint e) (input e) (output e) h.

Definition append_all (es : list entry) (h : list entry) : list entry :=
  fold_left (fun acc e => append e acc) es h.

(** [clear_history]: the new log and the count it reports. *)
Definition clear_history (query_history : list entry) : list entry * nat :=
  ([], length query_history).

(** The operations that change the log. *)
Inductive op :=
| Append (e : entry)
| Clear.

Definition step (h : list entry) (o : op) : list entry :=
  match o with
  | Append e => append e h
  | Clear => fst (clear_history h)
  end.

(** The log after a sequence of operations, starting from the empty
    log of a fresh process. *)
Definition run (ops : list op) : list entry := fold_left step ops [].

(** The last [n] elements of a list, oldest first. *)
Definition last_n {A} (n : nat) (l : list A) : list A :=
  drop (length l - n) l.

End Log.
Arguments entry : clear implicits.
Arguments op : clear implicits.

(** An entry that carries its index, to number the appends of a run. *)
Definition numbered (i : nat) : entry nat nat :=
  Entry "" "/api/arithmetic" i i.

End AuditLog.

(** ** Python strings and integers

    Strings are sequences of ASCII characters. *)

Module PyStr.
Local Open Scope string_scope.

(** [s.split(sep)] for a one-character separator: never empty, and an
    empty field between two separators is kept. *)
Fixpoint split (sep : ascii) (s : string) : list string :=
  match s with
  | EmptyString => [EmptyString]
  | String c s' =>
      if Ascii.eqb c sep then EmptyString :: split sep s'
      else
        match split sep s' with
        | [] => [String c EmptyString]
        | p :: ps => String c p :: ps
        end
  end.

Definition is_digit (c : ascii) : bool :=
  let n := N_of_ascii c in ((48 <=? n) && (n <=? 57))%N.

Definition digit_val (c : ascii) : Z := Z.of_N (N_of_ascii c) - 48.

(** The characters [int()] skips around a number: tab, line feed,
    vertical tab, form feed, carriage return and the space. *)
Definition is_space (c : ascii) : bool :=
  let n := N_of_ascii c in
  (((9 <=? n) && (n <=? 13)) || (n =? 32))%N.

Fixpoint all_space (s : string) : bool :=
  match s with
  | EmptyString => true
  | String c s' => is_space c && all_space s'
  end.

Fixpoint lstrip (s : string) : string :=
  match s with
  | String c s' => if is_space c then lstrip s' else s
  | EmptyString => s
  end.

(** The digits of a decimal literal, with single underscores allowed
    between digits; what follows the digits must be white space.
    [cnt] counts the digits and [after_digit] tells whether the
    previous character was a digit. *)
Fixpoint scan_digits (s : string) (acc : Z) (cnt : nat) (after_digit : bool)
    : option (Z * nat) :=
  match s with
  | EmptyString => if after_digit then Some (acc, cnt) else None
  | String c s' =>
      if is_digit c then scan_digits s' (10 * acc + digit_val c) (S cnt) true
      else if Ascii.eqb c "_" then
        if after_digit then scan_digits s' acc cnt false else None
      else if after_digit && all_space s then Some (acc, cnt)
      else None
  end.

(** The default limit on the number of digits [int()] converts
    ([sys.int_info.default_max_str_digits]). *)
Definition max_str_digits : nat := 4300.

Definition finish (neg : bool) (r : option (Z * nat)) : result Z :=
  match r with
  | Some (v, cnt) =>
      if (max_str_digits <? cnt)%nat then Raise ValueError
      else Ok (if neg then - v else v)
  | None => Raise ValueError
  end.

(** [int(s)] for a string, base 10: [ValueError] unless [s] is an
    optional sign and a decimal literal, possibly surrounded by white
    space. *)
Definition int_of_str (s : string) : result Z :=
  match lstrip s with
  | String "-" s' => finish true (scan_digits s' 0 0 false)
  | String "+" s' => finish false (scan_digits s' 0 0 false)
  | s' => finish false (scan_digits s' 0 0 false)
  end.

(** The decimal form of an integer: what [str(n)] and an f-string show
    for an integer of at most [max_str_digits] digits (the limit itself
    is [str_int] below). *)
Definition digit_char (d : Z) : ascii := ascii_of_N (Z.to_N (48 + d)).

Fixpoint digits_of (fuel : nat) (n : Z) (acc : string) : string :=
  match fuel with
  | O => acc
  | S fuel' =>
      let acc' := String (digit_char (n mod 10)) acc in
      if (n <? 10)%Z then acc' else digits_of fuel' (n / 10) acc'
  end.

Definition str_of_nonneg (n : Z) : string :=
  digits_of (S (Z.to_nat (Z.log2 n))) n EmptyString.

Definition str_of_int (z : Z) : string :=
  if (z <? 0)%Z then String "-" (str_of_nonneg (- z)) else str_of_nonneg z.

(** The number of decimal digits of an integer, the sign not counted. *)
Definition digit_count (z : Z) : nat := String.length (str_of_nonneg (Z.abs z)).

(** [str(n)] as the interpreter computes it: [ValueError] when the
    decimal form has more than [max_str_digits] digits. *)
Definition str_int (z : Z) : result string :=
  if (max_str_digits <? digit_count z)%nat then Raise ValueError
  else Ok (str_of_int z).

End PyStr.

(** ** Algebra *)

Module Algebra.

Record linear_request := LinearRequest {
  lin_a : option num;
  lin_b : option num
}.

(** The [solution] object of the linear solver. *)
Record linear_body := LinearBody { sol_x : float }.

(** [solve_linear] before decoration. *)
Definition solve_linear_view (data : linear_request)
    : result (reply linear_body) :=
  a ← get_float (lin_a data) 0;
  b ← get_float (lin_b data) 0;
  if feq a zero then
    Ok (JsonError 400 "Coefficient 'a' cannot be zero" None)
  else
    x ← fdiv (fneg b) a;
    Ok (Json (LinearBody (round6 x))).

Definition solve_linear (data : linear_request) : reply linear_body :=
  handle_errors (solve_linear_view data).

Record quadratic_request := QuadraticRequest {
  quad_a : option num;
  quad_b : option num;
  quad_c : option num
}.

(** The [solutions] object: its [type] tag and the numbers it carries.
    For the complex pair the program prints the two rounded numbers
    into the strings "re + imi" and "re - imi". *)
Inductive solutions :=
| two_real (x1 x2 : float)
| one_real (x : float)
| complex (real_part imag_part : float).

Record quadratic_body := QuadraticBody {
  discriminant_shown : float;
  sols : solutions
}.

Section WithPow.
Variable libm_pow : float -> positive -> float.

(** [b**2 - 4*a*c], unrounded. *)
Definition discriminant (a b c : float) : result float :=
  b2 ← fpow libm_pow b 2;
  Ok (fsub b2 (fmul (fmul four a) c)).

Definition solve_quadratic_view (data : quadratic_request)
    : result (reply quadratic_body) :=
  a ← get_float (quad_a data) 0;
  b ← get_float (quad_b data) 0;
  c ← get_float (quad_c data) 0;
  if feq a zero then
    Ok (JsonError 400 "Coefficient 'a' cannot be zero" None)
  else
    d ← discriminant a b c;
    if fgt d zero then
      r1 ← math_sqrt d;
      x1 ← fdiv (fadd (fneg b) r1) (fmul two a);
      r2 ← math_sqrt d;
      x2 ← fdiv (fsub (fneg b) r2) (fmul two a);
      Ok (Json (QuadraticBody (round6 d) (two_real (round6 x1) (round6 x2))))
    else if feq d zero then
      x ← fdiv (fneg b) (fmul two a);
      Ok (Json (QuadraticBody (round6 d) (one_real (round6 x))))
    else
      real_part ← fdiv (fneg b) (fmul two a);
      r ← math_sqrt (fneg d);
      imag_part ← fdiv r (fmul two a);
      Ok (Json (QuadraticBody (round6 d)
                  (complex (round6 real_part) (round6 imag_part)))).

Definition solve_quadratic (data : quadratic_request) : reply quadratic_body :=
  handle_errors (solve_quadratic_view data).

End WithPow.

(** Notions used to state the properties of the linear solver. *)

(** The exact value of [a*x + b] for finite floats, as an integer times
    a power of two, and the test that its magnitude is at most 1e-6. *)
Definition exact_value (x : float) : Z * Z :=
  match x with
  | S754_finite s m e => (cond_Zopp s (Zpos m), e)
  | _ => (0, 0)
  end.

Definition residual (a x b : float) : Z * Z :=
  let '(ma, ea) := exact_value a in
  let '(mx, ex) := exact_value x in
  let '(mb, eb) := exact_value b in
  let e := Z.min (ea + ex) eb in
  (ma * mx * 2 ^ (ea + ex - e) + mb * 2 ^ (eb - e), e).

Definition within_1e6 (r : Z * Z) : bool :=
  let '(n, e) := r in
  if 0 <=? e then Z.abs n * 2 ^ e * 10 ^ 6 <=? 1
  else Z.abs n * 10 ^ 6 <=? 2 ^ (- e).

(** [abs(a*x + b) <= 1e-6], evaluated with floats as a test would. *)
Definition residual_test (a x b : float) : bool :=
  fle (fabs (fadd (fmul a x) b)) (nearest_ratio 1 1000000).

(** [abs(r) <= abs(a) * 1e-6] for an exact value [r] and a finite
    float [a]: both sides are brought to the smaller exponent and
    compared as integers. *)
Definition within_1e6_of (a : float) (r : Z * Z) : bool :=
  let '(ma, ea) := exact_value a in
  let '(n, e) := r in
  let k := Z.min ea e in
  Z.abs n * 2 ^ (e - k) * 10 ^ 6 <=? Z.abs ma * 2 ^ (ea - k).

(** [abs(b) <= 1e8 * abs(a)] for finite floats, on their exact
    values: the quotient [-b/a] has a magnitude of at most 1e8. *)
Definition quotient_moderate (a b : float) : bool :=
  let '(ma, ea) := exact_value a in
  let '(mb, eb) := exact_value b in
  let k := Z.min ea eb in
  Z.abs mb * 2 ^ (eb - k) <=? 10 ^ 8 * (Z.abs ma * 2 ^ (ea - k)).

End Algebra.

(** ** The real number of a float

    Used to bound the rounding errors of the linear solver. *)

Module Exact.
Import Algebra.

(** [2^e] for an integer exponent. *)
Definition bpow (e : Z) : R := powerRZ 2 e.

(** The magnitude of a finite float, 0 for the others. *)
Definition absR (x : float) : R :=
  match x with
  | S754_finite _ m e => (IZR (Zpos m) * bpow e)%R
  | _ => 0%R
  end.

(** The value of a finite float, read off [exact_value]. *)
Definition valR (x : float) : R :=
  (IZR (fst (exact_value x)) * bpow (snd (exact_value x)))%R.

Definition sgnR (s : bool) : R := if s then (-1)%R else 1%R.

End Exact.

(** ** Geometry *)

Module Geometry.
Section WithPow.
Variable libm_pow : float -> positive -> float.

Record circle_request := CircleRequest { c_radius : option num }.
Record circle_body := CircleBody {
  circle_radius : float;
  circle_area : float;
  circumference : float;
  diameter : float
}.

Definition circle_view (data : circle_request) : result (reply circle_body) :=
  radius ← get_float (c_radius data) 0;
  if fle radius zero then
    Ok (JsonError 400 "Radius must be positive" None)
  else
    r2 ← fpow libm_pow radius 2;
    Ok (Json (CircleBody radius
                (round6 (fmul math_pi r2))
                (round6 (fmul (fmul two math_pi) radius))
                (round6 (fmul two radius)))).

Definition circle (data : circle_request) : reply circle_body :=
  handle_errors (circle_view data).

Record rectangle_request := RectangleRequest {
  r_length : option num;
  r_width : option num
}.
Record rectangle_body := RectangleBody {
  rect_length : float;
  rect_width : float;
  rect_area : float;
  rect_perimeter : float;
  diagonal : float
}.

Definition rectangle_view (data : rectangle_request)
    : result (reply rectangle_body) :=
  length ← get_float (r_length data) 0;
  width ← get_float (r_width data) 0;
  if fle length zero || fle width zero then
    Ok (JsonError 400 "Dimensions must be positive" None)
  else
    l2 ← fpow libm_pow length 2;
    w2 ← fpow libm_pow width 2;
    dg ← math_sqrt (fadd l2 w2);
    Ok (Json (RectangleBody length width
                (round6 (fmul length width))
                (round6 (fmul two (fadd length width)))
                (round6 dg))).

Definition rectangle (data : rectangle_request) : reply rectangle_body :=
  handle_errors (rectangle_view data).

Record triangle_request := TriangleRequest {
  t_base : option num;
  t_height : option num;
  t_side_a : option num;
  t_side_b : option num
}.
Record triangle_body := TriangleBody {
  tri_base : float;
  tri_height : float;
  tri_area : float;
  tri_perimeter : float
}.

(** [float(data.get('side_a', base))]: the default is the float
    [base] itself. *)
Definition get_side (field : option num) (base : float) : result float :=
  to_float (default (NFloat base) field).

Definition triangle_view (data : triangle_request)
    : result (reply triangle_body) :=
  base ← get_float (t_base data) 0;
  height ← get_float (t_height data) 0;
  side_a ← get_side (t_side_a data) base;
  side_b ← get_side (t_side_b data) base;
  if fle base zero || fle height zero then
    Ok (JsonError 400 "Base and height must be positive" None)
  else
    Ok (Json (TriangleBody base height
                (round6 (fmul (fmul lit_0_5 base) height))
                (round6 (fadd (fadd base side_a) side_b)))).

Definition triangle (data : triangle_request) : reply triangle_body :=
  handle_errors (triangle_view data).

Record cube_request := CubeRequest { c_side : option num }.
Record cube_body := CubeBody {
  cube_side : float;
  cube_volume : float;
  cube_surface_area : float;
  space_diagonal : float
}.

Definition cube_view (data : cube_request) : result (reply cube_body) :=
  side ← get_float (c_side data) 0;
  if fle side zero then
    Ok (JsonError 400 "Side length must be positive" None)
  else
    s3 ← fpow libm_pow side 3;
    s2 ← fpow libm_pow side 2;
    r3 ← math_sqrt three;
    Ok (Json (CubeBody side
                (round6 s3)
                (round6 (fmul six s2))
                (round6 (fmul side r3)))).

Definition cube (data : cube_request) : reply cube_body :=
  handle_errors (cube_view data).

Record sphere_request := SphereRequest { s_radius : option num }.
Record sphere_body := SphereBody {
  sphere_radius : float;
  sphere_volume : float;
  sphere_surface_area : float
}.

Definition sphere_view (data : sphere_request) : result (reply sphere_body) :=
  radius ← get_float (s_radius data) 0;
  if fle radius zero then
    Ok (JsonError 400 "Radius must be positive" None)
  else
    r3 ← fpow libm_pow radius 3;
    r2 ← fpow libm_pow radius 2;
    Ok (Json (SphereBody radius
                (round6 (fmul (fmul four_thirds math_pi) r3))
                (round6 (fmul (fmul four math_pi) r2)))).

Definition sphere (data : sphere_request) : reply sphere_body :=
  handle_errors (sphere_view data).

End WithPow.

End Geometry.

(** ** Statistics: the [mode] field

    [freq = Counter(dataset)] is a dictionary in insertion order; two
    floats are the same key when they are the same object or compare
    equal.  The JSON decoder yields one shared object for every [NaN]
    literal and [float(x)] returns a float unchanged, so two NaN of a
    dataset are one key; [0.0] and [-0.0] are one key as well, kept as
    the first of them that was met. *)

Module Statistics.

Definition key_eq (x y : float) : bool :=
  feq x y || (is_nan x && is_nan y).

(** [Counter(dataset)]: keys in order of first occurrence, each with
    its count. *)
Fixpoint bump (k : float) (freq : list (float * nat)) : list (float * nat) :=
  match freq with
  | [] => [(k, 1%nat)]
  | (k', v) :: rest =>
      if key_eq k' k then (k', S v) :: rest else (k', v) :: bump k rest
  end.

Definition Counter (dataset : list float) : list (float * nat) :=
  fold_left (fun freq x => bump x freq) dataset [].

(** [max(freq.values())] *)
Definition max_value (freq : list (float * nat)) : nat :=
  fold_right (fun kv m => Nat.max (snd kv) m) 0%nat freq.

Inductive mode_report :=
| NoMode
| Modes (values : list float).

(** The value of the ["mode"] key of the response, for the converted
    dataset. *)
Definition mode_field (dataset : list float) : mode_report :=
  let n := length dataset in
  let freq := Counter dataset in
  let max_freq := max_value freq in
  let mode_val :=
    map fst (List.filter (fun kv => Nat.eqb (snd kv) max_freq) freq) in
  if (length mode_val <? n)%nat then Modes mode_val else NoMode.

(** How often a value occurs in the dataset, as a dictionary key. *)
Definition occurrences (x : float) (dataset : list float) : nat :=
  length (List.filter (key_eq x) dataset).

(** Every element is distinct: no key occurs twice. *)
Fixpoint all_distinct (dataset : list float) : bool :=
  match dataset with
  | [] => true
  | x :: rest => negb (existsb (key_eq x) rest) && all_distinct rest
  end.

(** Notions used to state and prove the properties of the mode. *)

(** The dictionary key of a float: the two zeros are one key. *)
Definition key_of (x : float) : float :=
  match x with
  | S754_zero _ => S754_zero false
  | _ => x
  end.

(** The count stored for the key of [x], 0 when there is none. *)
Fixpoint count_of (x : float) (freq : list (float * nat)) : nat :=
  match freq with
  | [] => 0%nat
  | (k, v) :: rest => if key_eq k x then v else count_of x rest
  end.

Definition keys (freq : list (float * nat)) : list float := map fst freq.

Definition total (freq : list (float * nat)) : nat :=
  fold_right (fun kv s => (snd kv + s)%nat) 0%nat freq.

(** A well-formed counter: no key twice, no count of zero. *)
Definition well_formed (freq : list (float * nat)) : Prop :=
  all_distinct (keys freq) = true /\ Forall (fun kv => (1 <= snd kv)%nat) freq.

(** [x] is tied for the highest frequency of the dataset. *)
Definition most_frequent (x : float) (dataset : list float) : Prop :=
  forall y, In y dataset -> (occurrences y dataset <= occurrences x dataset)%nat.

(** The list [mode_val] of the program. *)
Definition mode_val (dataset : list float) : list float :=
  keys (List.filter
          (fun kv => Nat.eqb (snd kv) (max_value (Counter dataset)))
          (Counter dataset)).

End Statistics.

(** ** Quiz *)

Module Quiz.
Import PyStr.
Local Open Scope string_scope.

(** The random module as an oracle: one raw draw per call, in program
    order.  [random.choice] and [random.randint] map a raw draw into
    their range. *)
Record draws := Draws {
  draw0 : nat;   (* random.choice(quiz_types) *)
  draw1 : Z;     (* first random.randint of the branch *)
  draw2 : Z;     (* second random.randint of the branch *)
  draw3 : nat    (* random.choice of the operation *)
}.

Definition choice (l : list string) (d : nat) : string :=
  nth (d mod length l) l "".

Definition randint (lo hi : Z) (d : Z) : Z := lo + d mod (hi - lo + 1).

Definition quiz_types : list string := ["arithmetic"; "algebra"; "geometry"].
Definition op_names : list string := ["add"; "subtract"; "multiply"].

Record question := Question {
  q_type : string;
  answer_id : string;
  difficulty : string;
  unit : option string
}.

(** [generate_quiz]: [type_arg] is the query parameter [type]. *)
Definition generate_quiz_view (type_arg : option string) (rnd : draws)
    : result (reply question) :=
  let quiz_type := default (choice quiz_types (draw0 rnd)) type_arg in
  if String.eqb quiz_type "arithmetic" then
    let a := randint 1 100 (draw1 rnd) in
    let b := randint 1 100 (draw2 rnd) in
    let op := choice op_names (draw3 rnd) in
    Ok (Json (Question "arithmetic"
                (quiz_type ++ "_" ++ str_of_int a ++ "_" ++ str_of_int b
                   ++ "_" ++ op)
                "easy" None))
  else if String.eqb quiz_type "algebra" then
    let a := randint 1 10 (draw1 rnd) in
    let b := randint (-20) 20 (draw2 rnd) in
    Ok (Json (Question "linear_equation"
                ("algebra_" ++ str_of_int a ++ "_" ++ str_of_int b)
                "medium" None))
  else if String.eqb quiz_type "geometry" then
    let radius := randint 1 20 (draw1 rnd) in
    Ok (Json (Question "geometry"
                ("circle_" ++ str_of_int radius)
                "medium" (Some "square units")))
  else Ok ReturnedNone.

Definition generate_quiz (type_arg : option string) (rnd : draws)
    : reply question :=
  handle_errors (generate_quiz_view type_arg rnd).

Record validate_request := ValidateRequest {
  v_answer_id : option string;
  v_answer : option num
}.

Record verdict := Verdict {
  correct : bool;
  user_answer : float;
  correct_answer : num
}.

(** [parts[i]] *)
Definition part (parts : list string) (i : nat) : result string :=
  match parts !! i with
  | Some s => Ok s
  | None => Raise IndexError
  end.

(** [x / y] on integers: true division, correctly rounded. *)
Definition int_truediv (x y : Z) : result float :=
  match y, x with
  | Z0, _ => Raise ZeroDivisionError
  | _, Z0 => Ok (S754_zero (y <? 0)%Z)
  | _, _ =>
      let f :=
        SFdiv prec emax
          (S754_finite (x <? 0)%Z (Z.to_pos (Z.abs x)) 0)
          (S754_finite (y <? 0)%Z (Z.to_pos (Z.abs y)) 0) in
      if is_inf f then Raise OverflowError else Ok f
  end.

(** The three branches that recompute the correct answer from the
    parts of the token; [None] stands for the final [else]. *)
Definition derive (parts : list string) : result (option num) :=
  tag ← part parts 0;
  if String.eqb tag "arithmetic" then
    p1 ← part parts 1;
    a ← int_of_str p1;
    p2 ← part parts 2;
    b ← int_of_str p2;
    op ← part parts 3;
    if String.eqb op "add" then Ok (Some (NInt (a + b)))
    else if String.eqb op "subtract" then Ok (Some (NInt (a - b)))
    else if String.eqb op "multiply" then Ok (Some (NInt (a * b)))
    else Raise KeyError
  else if String.eqb tag "algebra" then
    p1 ← part parts 1;
    a ← int_of_str p1;
    p2 ← part parts 2;
    b ← int_of_str p2;
    q ← int_truediv (- b) a;
    Ok (Some (NFloat q))
  else if String.eqb tag "circle" then
    p1 ← part parts 1;
    radius ← int_of_str p1;
    r2 ← of_int (radius ^ 2);
    Ok (Some (NFloat (round2 (fmul math_pi r2))))
  else Ok None.

(** [round(correct_answer, 6)]: an integer is returned as it is. *)
Definition round6_num (v : num) : num :=
  match v with
  | NInt z => NInt z
  | NFloat f => NFloat (round6 f)
  end.

(** [abs(user_answer - correct_answer) < 0.01] *)
Definition judge (user_answer : float) (correct_answer : num) : result bool :=
  c ← to_float correct_answer;
  Ok (flt (fabs (fsub user_answer c)) lit_0_01).

Definition validate_quiz_view (data : validate_request)
    : result (reply verdict) :=
  let answer_id := default "" (v_answer_id data) in
  user_answer ← get_float (v_answer data) 0;
  let parts := split "_" answer_id in
  found ← derive parts;
  match found with
  | None => Ok (JsonError 400 "Invalid answer_id" None)
  | Some correct_answer =>
      is_correct ← judge user_answer correct_answer;
      Ok (Json (Verdict is_correct user_answer (round6_num correct_answer)))
  end.

Definition validate_quiz (data : validate_request) : reply verdict :=
  handle_errors (validate_quiz_view data).

(** The correct answer recomputed from a token, as the validator
    derives it. *)
Definition recompute (answer_id : string) : result (option num) :=
  derive (split "_" answer_id).


(** Notions used to state and prove the properties of the quiz. *)


Fixpoint no_underscore (s : string) : bool :=
  match s with
  | EmptyString => true
  | String c s' => negb (Ascii.eqb c "_") && no_underscore s'
  end.






End Quiz.

(** ** History *)

Module History.
Import AuditLog PyStr.

(** [l[start:]] *)
Definition slice_from {A} (start : Z) (l : list A) : list A :=
  let n := Z.of_nat (length l) in
  let i := if start <? 0 then Z.max (start + n) 0 else Z.min start n in
  drop (Z.to_nat i) l.

Record history_body (I O : Type) := HistoryBody {
  total_queries : nat;
  history : list (entry I O)
}.
Arguments HistoryBody {I O} total_queries history.
Arguments total_queries {I O} h.
Arguments history {I O} h.

(** [get_history]: [limit_arg] is the query parameter [limit], a
    string when present. *)
Definition get_history_view {I O} (limit_arg : option string)
    (query_history : list (entry I O)) : result (reply (history_body I O)) :=
  limit ← match limit_arg with
          | Some s => int_of_str s
          | None => Ok 20
          end;
  Ok (Json (HistoryBody (length query_history)
              (slice_from (- limit) query_history))).

(** The route has no [handle_errors] decorator. *)
Definition get_history {I O} (limit_arg : option string)
    (query_history : list (entry I O)) : reply (history_body I O) :=
  undecorated (get_history_view limit_arg query_history).

(** How many entries a reply carries. *)
Definition history_len {I O} (r : reply (history_body I O)) : option nat :=
  match r with
  | Json b => Some (length (history b))
  | _ => None
  end.

End History.

(** ** Arithmetic *)

Module Arithmetic.
Import PyStr.
Local Open Scope string_scope.

(** A [fractions.Fraction]: always in lowest terms, with a positive
    denominator. *)
Record fraction := Fraction { numerator : Z; denominator : positive }.

Definition make_fraction (n : Z) (d : positive) : fraction :=
  let g := Z.gcd n (Zpos d) in
  Fraction (n / g) (Z.to_pos (Zpos d / g)).

(** [Fraction(v)]: an integer is taken as it is, a float by its exact
    value ([as_integer_ratio]), which raises [ValueError] for NaN and
    [OverflowError] for an infinity. *)
Definition fraction_of (v : num) : result fraction :=
  match v with
  | NInt z => Ok (Fraction z 1)
  | NFloat S754_nan => Raise ValueError
  | NFloat (S754_infinity _) => Raise OverflowError
  | NFloat (S754_zero _) => Ok (Fraction 0 1)
  | NFloat (S754_finite s m e) =>
      let n := cond_Zopp s (Zpos m) in
      Ok (if (0 <=? e)%Z then Fraction (n * 2 ^ e) 1
          else make_fraction n (Z.to_pos (2 ^ (- e))))
  end.

(** [str(q)] for a fraction: the numerator alone when the denominator
    is 1, else ['%s/%s' % (numerator, denominator)]; either integer
    raises [ValueError] when it has too many digits to print. *)
Definition fraction_str (q : fraction) : result string :=
  if (denominator q =? 1)%positive then str_int (numerator q)
  else
    n ← str_int (numerator q);
    d ← str_int (Zpos (denominator q));
    Ok (n ++ "/" ++ d).

(** The keys of the dictionary [operations], in its order. *)
Inductive operator := op_add | op_subtract | op_multiply | op_divide.

Definition operations : list (string * operator) :=
  [("add", op_add); ("subtract", op_subtract);
   ("multiply", op_multiply); ("divide", op_divide)].

Fixpoint lookup_operation (operation : string)
    (table : list (string * operator)) : option operator :=
  match table with
  | [] => None
  | (name, o) :: rest =>
      if String.eqb name operation then Some o
      else lookup_operation operation rest
  end.

(** The four lambdas on floats; [None] is the value of
    [x / y if y != 0 else None] when [y == 0]. *)
Definition float_operation (o : operator) (x y : float) : option float :=
  match o with
  | op_add => Some (fadd x y)
  | op_subtract => Some (fsub x y)
  | op_multiply => Some (fmul x y)
  | op_divide => if feq y zero then None else Some (SFdiv prec emax x y)
  end.

(** The four lambdas on fractions. *)
Definition fraction_operation (o : operator) (x y : fraction)
    : option fraction :=
  let '(Fraction nx dx) := x in
  let '(Fraction ny dy) := y in
  match o with
  | op_add =>
      Some (make_fraction (nx * Zpos dy + ny * Zpos dx) (dx * dy))
  | op_subtract =>
      Some (make_fraction (nx * Zpos dy - ny * Zpos dx) (dx * dy))
  | op_multiply => Some (make_fraction (nx * ny) (dx * dy))
  | op_divide =>
      match ny with
      | Z0 => None
      | Zpos p => Some (make_fraction (nx * Zpos dy) (dx * p))
      | Zneg p => Some (make_fraction (- (nx * Zpos dy)) (dx * p))
      end
  end.

Record arithmetic_request := ArithmeticRequest {
  ar_operation : option string;
  ar_a : option num;
  ar_b : option num;
  ar_fractions : option bool
}.

(** A value of the response: the string [str(q)] of a fraction, or a
    float.  The [result] is [str(result)] in exact mode and
    [float(result)] otherwise; the operands are [str(a)] and [str(b)],
    which for a float is the text of that float. *)
Inductive shown :=
| ShownStr (s : string)
| ShownFloat (f : float).

Record arithmetic_body := ArithmeticBody {
  body_operation : string;
  body_a : shown;
  body_b : shown;
  body_result : shown
}.

Definition missing_fields : string :=
  "Missing required fields: operation, a, b".
Definition invalid_operation : string :=
  "Invalid operation. Choose from: ['add', 'subtract', 'multiply', 'divide']".

Definition arithmetic_view (data : arithmetic_request)
    : result (reply arithmetic_body) :=
  match ar_operation data, ar_a data, ar_b data with
  | Some operation, Some a, Some b =>
      if default false (ar_fractions data) then
        fa ← fraction_of a;
        fb ← fraction_of b;
        match lookup_operation operation operations with
        | None => Ok (JsonError 400 invalid_operation None)
        | Some o =>
            match fraction_operation o fa fb with
            | None => Ok (JsonError 400 "Division by zero" None)
            | Some r =>
                sa ← fraction_str fa;
                sb ← fraction_str fb;
                sr ← fraction_str r;
                Ok (Json (ArithmeticBody operation
                            (ShownStr sa) (ShownStr sb) (ShownStr sr)))
            end
        end
      else
        fa ← to_float a;
        fb ← to_float b;
        match lookup_operation operation operations with
        | None => Ok (JsonError 400 invalid_operation None)
        | Some o =>
            match float_operation o fa fb with
            | None => Ok (JsonError 400 "Division by zero" None)
            | Some r =>
                Ok (Json (ArithmeticBody operation
                            (ShownFloat fa) (ShownFloat fb) (ShownFloat r)))
            end
        end
  | _, _, _ => Ok (JsonError 400 missing_fields None)
  end.

Definition arithmetic (data : arithmetic_request) : reply arithmetic_body :=
  handle_errors (arithmetic_view data).

(** Notions used to state the properties of the endpoint. *)

(** A JSON number that compares equal to zero: [0], [0.0] or [-0.0]. *)
Definition is_zero (v : num) : bool :=
  match v with
  | NInt z => (z =? 0)%Z
  | NFloat f => feq f zero
  end.

(** The operand can be converted in the mode of the request. *)
Definition converts (exact_mode : bool) (v : num) : Prop :=
  if exact_mode then exists q, fraction_of v = Ok q
  else exists f, to_float v = Ok f.

End Arithmetic.

(** ** Statistics: the endpoint

    The model covers the request bodies whose [data], when present, is
    an array of JSON numbers.  Two builtins are parameters of the
    handler, because their result on floats is not fixed by the
    language: [sum], which adds from left to right in the interpreters
    before 3.12 and with a compensated sum since, and [sorted], whose
    order on a list that holds a NaN depends on the merge strategy.
    Neither raises on a list of floats. *)

Module Summary.
Import Statistics.
Local Open Scope string_scope.

(** [min(dataset)] and [max(dataset)]: the first element is the
    candidate, and a later element replaces it when it is strictly
    smaller (larger); an empty sequence raises [ValueError]. *)
Definition py_min (dataset : list float) : result float :=
  match dataset with
  | [] => Raise ValueError
  | x :: rest =>
      Ok (fold_left (fun cur item => if flt item cur then item else cur) rest x)
  end.

Definition py_max (dataset : list float) : result float :=
  match dataset with
  | [] => Raise ValueError
  | x :: rest =>
      Ok (fold_left (fun cur item => if fgt item cur then item else cur) rest x)
  end.

(** A comprehension [[f(x) for x in l]] whose element expression can
    raise: the elements are computed from left to right, and the first
    exception ends it. *)
Fixpoint each {A B} (f : A -> result B) (l : list A) : result (list B) :=
  match l with
  | [] => Ok []
  | x :: rest =>
      y ← f x;
      ys ← each f rest;
      Ok (y :: ys)
  end.

(** [l[i]] for an index that is not negative. *)
Definition item (l : list float) (i : nat) : result float :=
  match l !! i with
  | Some x => Ok x
  | None => Raise IndexError
  end.

Record statistics_request := StatisticsRequest {
  st_data : option (list num)
}.

(** The response, without its timestamp. *)
Record statistics_body := StatisticsBody {
  st_dataset_size : nat;
  st_mean : float;
  st_median : float;
  st_mode : mode_report;
  st_variance : float;
  st_standard_deviation : float;
  st_range : float;
  st_min : float;
  st_max : float
}.

Definition invalid_dataset : string :=
  "Invalid dataset. Provide an array of numbers.".

Section Handler.
Variable libm_pow : float -> positive -> float.
Variable py_sum : list float -> float.
Variable py_sorted : list float -> list float.

Definition statistics_view (data : statistics_request)
    : result (reply statistics_body) :=
  match default [] (st_data data) with
  | [] => Ok (JsonError 400 invalid_dataset None)
  | raw =>
      dataset ← each to_float raw;
      let n := length dataset in
      count ← of_int (Z.of_nat n);
      mean_val ← fdiv (py_sum dataset) count;
      let sorted_data := py_sorted dataset in
      median_val ←
        (if (n mod 2 =? 0)%nat then
           low ← item sorted_data (n / 2 - 1);
           high ← item sorted_data (n / 2);
           fdiv (fadd low high) two
         else item sorted_data (n / 2));
      squares ← each (fun x => fpow libm_pow (fsub x mean_val) 2) dataset;
      variance_val ← fdiv (py_sum squares) count;
      std_dev_val ← math_sqrt variance_val;
      largest ← py_max dataset;
      smallest ← py_min dataset;
      let range_val := fsub largest smallest in
      Ok (Json (StatisticsBody n (round6 mean_val) (round6 median_val)
                  (mode_field dataset) (round6 variance_val)
                  (round6 std_dev_val) (round6 range_val) smallest largest))
  end.

Definition statistics (data : statistics_request) : reply statistics_body :=
  handle_errors (statistics_view data).

End Handler.

(** One possible [sum]: the sum from left to right, starting from 0. *)
Definition sum_left (l : list float) : float := fold_left fadd l zero.

(** One possible [sorted]: a stable insertion sort, which is what
    [sorted] returns on a list without NaN. *)
Fixpoint insert_sorted (x : float) (l : list float) : list float :=
  match l with
  | [] => [x]
  | y :: rest => if flt x y then x :: l else y :: insert_sorted x rest
  end.

Definition sorted_stable (l : list float) : list float :=
  fold_left (fun acc x => insert_sorted x acc) l [].

End Summary.

(** ** Notions used to state the further properties *)

(** The integers that [int()] reads back from their decimal form are
    those of at most 4300 digits. *)
Definition int_limit : Z := 10 ^ 4300.

(** A view function that, when it returns, returns a JSON body or a
    JSON error with status 400 or 500. *)
Definition answers_well {B} (r : result (reply B)) : Prop :=
  forall x, r = Ok x -> structured x.

(** * Properties *)

(** One step of the error monad. *)
Ltac monad := cbv [mbind result_bind mret result_ret handle_errors undecorated].

(** ** Facts about the float operations *)

Module PyFloatFacts.



Lemma fexp_eq z : fexp prec emax z = Z.max (z - 53) (-1074).
Proof. reflexivity. Qed.








Lemma shr_1_nonneg mrs : 0 <= shr_m mrs -> 0 <= shr_m (shr_1 mrs).
Proof.
  destruct mrs as [m r s]. simpl. intros Hm.
  destruct m as [| p | p]; [simpl; lia | | lia].
  destruct p; simpl; lia.
Qed.









End PyFloatFacts.

(** ** The audit log keeps the last 100 entries *)

Module AuditLogFacts.
Import AuditLog.
Local Open Scope nat_scope.

Section Facts.
Context {I O : Type}.
Implicit Types (h es : list (entry I O)) (e : entry I O).

Lemma append_unfold e h :
  append e h = if capacity <? length (h ++ [e]) then drop 1 (h ++ [e]) else h ++ [e].
Proof. unfold append, log_query. destruct e; reflexivity. Qed.

Lemma append_last_n e h :
  length h <= capacity -> append e h = last_n capacity (h ++ [e]).
Proof.
  intros Hle. rewrite append_unfold. unfold last_n.
  rewrite length_app. simpl length.
  destruct (Nat.ltb_spec capacity (length h + 1)) as [Hgt | Hngt].
  - replace (length h + 1 - capacity) with 1 by lia. reflexivity.
  - replace (length h + 1 - capacity) with 0 by lia. reflexivity.
Qed.

Lemma last_n_length (n : nat) h : length (last_n n h) = Nat.min n (length h).
Proof. unfold last_n. rewrite length_drop. lia. Qed.

Lemma last_n_snoc (n : nat) h e :
  last_n (S n) (h ++ [e]) = last_n n h ++ [e].
Proof.
  unfold last_n. rewrite length_app. simpl length.
  replace (length h + 1 - S n) with (length h - n) by lia.
  rewrite drop_app_le by lia. reflexivity.
Qed.

Lemma last_n_last_n (n : nat) h e :
  0 < n -> last_n n (last_n n h ++ [e]) = last_n n (h ++ [e]).
Proof.
  intros Hn. destruct n as [| n]; [lia |].
  rewrite !last_n_snoc. f_equal.
  unfold last_n. rewrite length_drop, drop_drop. f_equal. lia.
Qed.

Lemma append_all_snoc es e h :
  append_all (es ++ [e]) h = append e (append_all es h).
Proof. unfold append_all. rewrite fold_left_app. reflexivity. Qed.

Lemma append_all_last_n es h :
  length h <= capacity -> append_all es h = last_n capacity (h ++ es).
Proof.
  intros Hle. induction es as [| e es IH] using rev_ind.
  - simpl. rewrite app_nil_r. unfold last_n.
    replace (length h - capacity) with 0 by lia. reflexivity.
  - rewrite append_all_snoc, IH.
    rewrite append_last_n by (rewrite last_n_length; lia).
    rewrite last_n_last_n by (unfold capacity; lia).
    rewrite app_assoc. reflexivity.
Qed.

Lemma last_n_app_long (n : nat) h es :
  n <= length es -> last_n n (h ++ es) = last_n n es.
Proof.
  intros Hn. unfold last_n. rewrite length_app.
  rewrite drop_app_ge by lia. f_equal. lia.
Qed.

Lemma step_bounded h (o : op I O) :
  length h <= capacity -> length (step h o) <= capacity.
Proof.
  intros Hle. destruct o as [e |]; simpl.
  - rewrite append_last_n, last_n_length by exact Hle. lia.
  - lia.
Qed.

Lemma run_bounded (ops : list (op I O)) : length (run ops) <= capacity.
Proof.
  unfold run. induction ops as [| o ops IH] using rev_ind.
  - simpl. lia.
  - rewrite fold_left_app. simpl. apply step_bounded, IH.
Qed.

(** C2.  Whatever happened to the log before (any appends and
    clears since the process started), it holds at most 100
    entries; one more append puts the entry at the end and drops
    the oldest one exactly when the length would exceed 100; and
    after appending the entries [es] the log is the last 100
    entries of what it held followed by [es], in arrival order.
    When more than 100 entries are appended, the log is exactly
    the last 100 of them. *)
Theorem audit_log_keeps_last_100 (ops : list (op I O)) es e :
  let h := run ops in
  length h <= 100
  /\ append e h = (if length h <? 100 then h ++ [e] else drop 1 h ++ [e])
  /\ length (append_all es h) <= 100
  /\ append_all es h = last_n 100 (h ++ es)
  /\ (100 < length es ->
      append_all es h = drop (length es - 100) es
      /\ length (append_all es h) = 100).
Proof.
  intros h. pose proof (run_bounded ops) as Hh. fold h in Hh.
  unfold capacity in Hh.
  split; [exact Hh |].
  split.
  { rewrite append_unfold, length_app. simpl length. unfold capacity.
    destruct (Nat.ltb_spec 100 (length h + 1)) as [Hgt | Hngt];
      destruct (Nat.ltb_spec (length h) 100) as [Hlt | Hnlt]; try lia.
    - rewrite drop_app_le by lia. reflexivity.
    - reflexivity. }
  pose proof (append_all_last_n es h Hh) as Hall. unfold capacity in Hall.
  split; [rewrite Hall, last_n_length; lia |].
  split; [exact Hall |].
  intros Hlong. rewrite Hall, last_n_app_long by lia.
  split; [reflexivity |]. rewrite last_n_length. lia.
Qed.

End Facts.

Lemma audit_log_150_appends :
  append_all (map numbered (seq 0 150)) (run [])
    = map numbered (seq 50 100)
  /\ length (append_all (map numbered (seq 0 150)) (run [])) = 100.
Proof.
  destruct (audit_log_keeps_last_100 [] (map numbered (seq 0 150)) (numbered 0))
    as (_ & _ & _ & _ & Hlong).
  destruct Hlong as [Heq Hlen].
  - rewrite length_map, length_seq. lia.
  - split; [| exact Hlen]. rewrite Heq. vm_compute. reflexivity.
Defined.

End AuditLogFacts.

(** ** Rounding errors

    The operations of the linear solver are followed on the real
    numbers: a division of two finite floats and [round(x, 6)] return a
    float close to the exact result, as long as that result is not too
    large. *)

Module RoundingFacts.
Import Algebra Exact PyFloatFacts.

(** *** Powers of two *)

Lemma bpow_pos e : (0 < bpow e)%R.
Proof. apply powerRZ_lt. lra. Qed.

Lemma bpow_add a b : bpow (a + b) = (bpow a * bpow b)%R.
Proof. apply powerRZ_add. lra. Qed.

Lemma bpow_IZR n : 0 <= n -> bpow n = IZR (2 ^ n).
Proof.
  intros Hn. unfold bpow. rewrite <- (Z2Nat.id n Hn).
  rewrite <- pow_powerRZ. rewrite <- pow_IZR. reflexivity.
Qed.

Lemma bpow_ge_1 n : 0 <= n -> (1 <= bpow n)%R.
Proof.
  intros Hn. rewrite (bpow_IZR n Hn). apply IZR_le.
  pose proof (Z.pow_pos_nonneg 2 n). lia.
Qed.

Lemma bpow_le a b : a <= b -> (bpow a <= bpow b)%R.
Proof.
  intros Hab. replace b with (a + (b - a)) by lia. rewrite bpow_add.
  pose proof (bpow_pos a). pose proof (bpow_ge_1 (b - a)).
  assert (1 <= bpow (b - a))%R by (apply H0; lia). nra.
Qed.

Lemma bpow_lt a b : a < b -> (bpow a < bpow b)%R.
Proof.
  intros Hab. replace b with (a + 1 + (b - a - 1)) by lia.
  rewrite !bpow_add.
  pose proof (bpow_pos a).
  assert (1 <= bpow (b - a - 1))%R by (apply bpow_ge_1; lia).
  assert (E1 : bpow 1 = 2%R) by (unfold bpow; simpl; lra).
  rewrite E1. nra.
Qed.

Lemma bpow_lt_inv a b : (bpow a < bpow b)%R -> a < b.
Proof.
  intros H. destruct (Z.lt_ge_cases a b) as [Hlt | Hge]; [exact Hlt |].
  pose proof (bpow_le b a Hge). lra.
Qed.

Lemma bpow_0 : bpow 0 = 1%R.
Proof. reflexivity. Qed.

(** *** The digits of a mantissa *)

Lemma digits2_size p : digits2_pos p = Pos.size p.
Proof. induction p as [p IH | p IH |]; simpl; congruence. Qed.

Lemma digits_upper p : Zpos p < 2 ^ Zpos (digits2_pos p).
Proof.
  rewrite digits2_size. pose proof (Pos.size_gt p) as H.
  rewrite <- Pos2Z.inj_pow. lia.
Qed.

Lemma digits_lower p : 2 ^ (Zpos (digits2_pos p) - 1) <= Zpos p.
Proof.
  rewrite digits2_size. pose proof (Pos.size_le p) as H.
  assert (H2 : 2 ^ Zpos (Pos.size p) <= 2 * Zpos p).
  { rewrite <- Pos2Z.inj_pow. lia. }
  replace (Zpos (Pos.size p)) with (1 + (Zpos (Pos.size p) - 1)) in H2 by lia.
  rewrite Z.pow_add_r in H2 by lia. lia.
Qed.

Lemma digits_bpow p :
  (bpow (Zpos (digits2_pos p) - 1) <= IZR (Zpos p) < bpow (Zpos (digits2_pos p)))%R.
Proof.
  rewrite !bpow_IZR by lia. split.
  - apply IZR_le, digits_lower.
  - apply IZR_lt, digits_upper.
Qed.

Lemma fexp_bound m e L :
  0 <= m -> -1022 <= L -> e <= L - 52 ->
  (IZR m * bpow e < bpow (L + 1))%R ->
  fexp prec emax (Zdigits2 m + e) <= L - 52.
Proof.
  intros Hm HL He Hlt. rewrite fexp_eq.
  destruct m as [| p | p]; [simpl; lia | | lia].
  simpl Zdigits2.
  destruct (digits_bpow p) as [Hlo _].
  assert (Hb : (bpow (Zpos (digits2_pos p) - 1 + e) < bpow (L + 1))%R).
  { rewrite bpow_add. pose proof (bpow_pos e). nra. }
  apply bpow_lt_inv in Hb. lia.
Qed.

(** *** Shifts to the right *)

Lemma shr_1_half mrs : 0 <= shr_m mrs -> shr_m (shr_1 mrs) = shr_m mrs / 2.
Proof.
  destruct mrs as [m r s]. simpl. intros Hm. rewrite <- Z.div2_div.
  destruct m as [| p | p]; [reflexivity | | lia].
  destruct p; reflexivity.
Qed.

Lemma pow2_xO p : 2 ^ Zpos p~0 = 2 ^ Zpos p * 2 ^ Zpos p.
Proof.
  rewrite (Pos2Z.inj_xO p). replace (2 * Zpos p) with (Zpos p + Zpos p) by lia.
  apply Z.pow_add_r; lia.
Qed.

Lemma pow2_xI p : 2 ^ Zpos p~1 = 2 * (2 ^ Zpos p * 2 ^ Zpos p).
Proof.
  rewrite (Pos2Z.inj_xI p). replace (2 * Zpos p + 1) with (1 + (Zpos p + Zpos p)) by lia.
  rewrite !Z.pow_add_r by lia. reflexivity.
Qed.

Lemma iter_shr_1 p : forall mrs,
  0 <= shr_m mrs ->
  0 <= shr_m (SpecFloat.iter_pos shr_1 p mrs)
  /\ shr_m (SpecFloat.iter_pos shr_1 p mrs) = shr_m mrs / 2 ^ Zpos p.
Proof.
  induction p as [p IH | p IH |]; intros mrs Hm; simpl SpecFloat.iter_pos.
  - pose proof (shr_1_nonneg mrs Hm) as H1.
    destruct (IH _ H1) as [H2 E2]. destruct (IH _ H2) as [H3 E3].
    split; [exact H3 |]. rewrite E3, E2, shr_1_half by exact Hm.
    assert (0 < 2 ^ Zpos p) by (apply Z.pow_pos_nonneg; lia).
    rewrite !Z.div_div by lia. rewrite pow2_xI. reflexivity.
  - destruct (IH _ Hm) as [H2 E2]. destruct (IH _ H2) as [H3 E3].
    split; [exact H3 |]. rewrite E3, E2.
    assert (0 < 2 ^ Zpos p) by (apply Z.pow_pos_nonneg; lia).
    rewrite !Z.div_div by lia. rewrite pow2_xO. reflexivity.
  - split; [apply shr_1_nonneg, Hm |]. rewrite shr_1_half by exact Hm.
    reflexivity.
Qed.

Lemma shr_fexp_spec m e l :
  0 <= m ->
  let e' := Z.max e (fexp prec emax (Zdigits2 m + e)) in
  snd (shr_fexp prec emax m e l) = e'
  /\ shr_m (fst (shr_fexp prec emax m e l)) = m / 2 ^ (e' - e).
Proof.
  intros Hm e'. unfold shr_fexp, shr.
  assert (Hrec : shr_m (shr_record_of_loc m l) = m).
  { destruct l as [| []]; reflexivity. }
  destruct (fexp prec emax (Zdigits2 m + e) - e) as [| p | p] eqn:E.
  - simpl. replace e' with e by lia. rewrite Z.sub_diag, Z.div_1_r.
    split; [reflexivity | exact Hrec].
  - cbn [fst snd]. assert (He : e' = e + Zpos p) by lia.
    split; [lia |].
    destruct (iter_shr_1 p (shr_record_of_loc m l)) as [_ Eq]; [lia |].
    rewrite Eq, Hrec. f_equal. f_equal. lia.
  - simpl. replace e' with e by lia. rewrite Z.sub_diag, Z.div_1_r.
    split; [reflexivity | exact Hrec].
Qed.

Lemma floor_scaled m e e' :
  0 <= m -> e <= e' ->
  let m' := m / 2 ^ (e' - e) in
  0 <= m'
  /\ (IZR m' * bpow e' <= IZR m * bpow e)%R
  /\ ((IZR m + 1) * bpow e <= (IZR m' + 1) * bpow e')%R.
Proof.
  intros Hm He m'.
  assert (Hp : 0 < 2 ^ (e' - e)) by (apply Z.pow_pos_nonneg; lia).
  assert (H1 : m' * 2 ^ (e' - e) <= m).
  { unfold m'. rewrite Z.mul_comm. apply Z.mul_div_le. exact Hp. }
  assert (H2 : m + 1 <= (m' + 1) * 2 ^ (e' - e)).
  { unfold m'. pose proof (Z.mul_succ_div_gt m (2 ^ (e' - e)) Hp). lia. }
  split; [apply Z.div_pos; lia |].
  assert (Ee : bpow e' = (bpow e * IZR (2 ^ (e' - e)))%R).
  { rewrite <- bpow_IZR by lia. rewrite <- bpow_add. f_equal. lia. }
  rewrite Ee.
  apply IZR_le in H1, H2. rewrite mult_IZR in H1.
  rewrite mult_IZR, !plus_IZR in H2.
  pose proof (bpow_pos e). split; nra.
Qed.

Lemma round_nearest_even_range m l : m <= round_nearest_even m l <= m + 1.
Proof.
  unfold round_nearest_even. destruct l as [| []]; try destruct (Z.even m); lia.
Qed.

(** The error of the final rounding of an operation.  [V] is the exact
    value, known to lie between [mx] and [mx + 1] units of [2^ex]; when
    [V] is below [2^(L+1)] and the unit is at most [2^(L-52)], the
    result is finite and within two such units of [V]. *)
Lemma round_aux_error s mx ex lx (V : R) L :
  0 <= mx -> -1022 <= L -> L <= 1000 -> ex <= L - 52 ->
  (IZR mx * bpow ex <= V)%R -> (V <= (IZR mx + 1) * bpow ex)%R ->
  (V + bpow (L - 52) < bpow (L + 1))%R ->
  let r := binary_round_aux prec emax s mx ex lx in
  is_finite r = true /\ sign_of r = s
  /\ (Rabs (absR r - V) <= 2 * bpow (L - 52))%R.
Proof.
  intros Hm HL HL' Hex Hlo Hhi Hroom r. subst r. unfold binary_round_aux.
  pose proof (bpow_pos (L - 52)) as Hunit.
  destruct (shr_fexp_spec mx ex lx Hm) as [E1 M1].
  destruct (shr_fexp prec emax mx ex lx) as [r1 e1]. cbn [fst snd] in E1, M1.
  assert (He1 : e1 <= L - 52).
  { rewrite E1. apply Z.max_lub; [lia |]. apply fexp_bound; try lia. lra. }
  assert (Hex1 : ex <= e1) by lia.
  destruct (floor_scaled mx ex e1 Hm Hex1) as (Hm1 & Hlo1 & Hhi1).
  rewrite <- E1 in M1. rewrite <- M1 in Hm1, Hlo1, Hhi1. clear M1.
  set (m1 := shr_m r1) in *.
  pose proof (round_nearest_even_range m1 (loc_of_shr_record r1)) as Hr.
  set (m2 := round_nearest_even m1 (loc_of_shr_record r1)) in *.
  assert (Hm2 : 0 <= m2) by lia.
  pose proof (bpow_pos e1) as Hp1. pose proof (bpow_le e1 (L - 52) He1) as Hle1.
  assert (Hm2lo : (IZR m1 <= IZR m2)%R) by (apply IZR_le; lia).
  assert (Hm2hi : (IZR m2 <= IZR m1 + 1)%R).
  { rewrite <- plus_IZR. apply IZR_le. lia. }
  assert (Hv2 : (IZR m2 * bpow e1 < bpow (L + 1))%R) by nra.
  destruct (shr_fexp_spec m2 e1 loc_Exact Hm2) as [E3 M3].
  destruct (shr_fexp prec emax m2 e1 loc_Exact) as [r3 e3].
  cbn [fst snd] in E3, M3.
  assert (He3 : e3 <= L - 52).
  { rewrite E3. apply Z.max_lub; [lia |]. apply fexp_bound; try lia. exact Hv2. }
  assert (Hex3 : e1 <= e3) by lia.
  destruct (floor_scaled m2 e1 e3 Hm2 Hex3) as (Hm3 & Hlo3 & Hhi3).
  rewrite <- E3 in M3. rewrite <- M3 in Hm3, Hlo3, Hhi3. clear M3.
  pose proof (bpow_pos e3) as Hp3. pose proof (bpow_le e3 (L - 52) He3) as Hle3.
  assert (Herr : (Rabs (IZR (shr_m r3) * bpow e3 - V) <= 2 * bpow (L - 52))%R).
  { apply Rabs_le. split; nra. }
  destruct (shr_m r3) as [| p | p] eqn:Em3.
  - split; [reflexivity |]. split; [reflexivity |].
    simpl absR. rewrite Rmult_0_l in Herr. exact Herr.
  - replace (e3 <=? emax - prec) with true
      by (symmetry; apply Z.leb_le; unfold emax, prec; lia).
    split; [reflexivity |]. split; [reflexivity |]. exact Herr.
  - lia.
Qed.

(** The error of a division of finite floats whose exact quotient [V]
    is below [2^(L+1)]. *)
Lemma SFdiv_error sx mx ex sy my ey L :
  -1022 <= L -> L <= 1000 ->
  let V := (IZR (Zpos mx) * bpow ex / (IZR (Zpos my) * bpow ey))%R in
  (V + bpow (L - 52) < bpow (L + 1))%R ->
  let r := SFdiv prec emax (S754_finite sx mx ex) (S754_finite sy my ey) in
  is_finite r = true /\ sign_of r = xorb sx sy
  /\ (Rabs (absR r - V) <= 2 * bpow (L - 52))%R.
Proof.
  intros HL HL' V Hroom r. subst r. unfold SFdiv, SFdiv_core_binary.
  cbn [Zdigits2].
  pose proof (bpow_pos (L - 52)) as Hunit.
  destruct (digits_bpow mx) as [Hlo1 _]. destruct (digits_bpow my) as [_ Hhi2].
  set (d1 := Zpos (digits2_pos mx)) in *. set (d2 := Zpos (digits2_pos my)) in *.
  set (A := IZR (Zpos mx)) in *. set (B := IZR (Zpos my)) in *.
  assert (HA : (0 < A)%R) by (apply IZR_lt; lia).
  assert (HB : (0 < B)%R) by (apply IZR_lt; lia).
  pose proof (bpow_pos ex) as Hpex. pose proof (bpow_pos ey) as Hpey.
  assert (HVB : (V * (B * bpow ey) = A * bpow ex)%R).
  { unfold V. field. split; lra. }
  assert (HV0 : (0 < V)%R).
  { unfold V. apply Rdiv_lt_0_compat; nra. }
  assert (Hmag : d1 + ex - (d2 + ey) <= L + 1).
  { assert (H1 : (bpow (d1 - 1 + ex) < bpow (L + 1 + d2 + ey))%R).
    { rewrite (bpow_add (d1 - 1) ex), (bpow_add (L + 1 + d2) ey),
        (bpow_add (L + 1) d2).
      pose proof (bpow_pos (L + 1)). pose proof (bpow_pos d2).
      assert (H2 : (V * B < bpow (L + 1) * bpow d2)%R).
      { apply Rmult_le_0_lt_compat; lra. }
      assert (H3 : (V * B * bpow ey < bpow (L + 1) * bpow d2 * bpow ey)%R).
      { apply Rmult_lt_compat_r; lra. }
      assert (H4 : (bpow (d1 - 1) * bpow ex <= A * bpow ex)%R).
      { apply Rmult_le_compat_r; lra. }
      lra. }
    apply bpow_lt_inv in H1. lia. }
  set (e' := Z.min (fexp prec emax (d1 + ex - (d2 + ey))) (ex - ey)).
  assert (He' : e' <= L - 52).
  { unfold e'. rewrite fexp_eq. lia. }
  set (s := ex - ey - e').
  assert (Hs : 0 <= s) by (unfold s, e'; lia).
  set (m' := match s with
             | 0 => Zpos mx
             | Zpos _ => Z.shiftl (Zpos mx) s
             | Zneg _ => 0
             end).
  assert (Em' : m' = Zpos mx * 2 ^ s).
  { unfold m'. destruct s as [| p | p] eqn:Es; [lia | | lia].
    apply Z.shiftl_mul_pow2. lia. }
  assert (HVm : (V * B = IZR m' * bpow e')%R).
  { rewrite Em', mult_IZR, <- bpow_IZR by exact Hs. fold A.
    assert (Eex : bpow ex = (bpow s * bpow e' * bpow ey)%R).
    { rewrite <- !bpow_add. f_equal. unfold s. lia. }
    rewrite Eex in HVB.
    apply (Rmult_eq_reg_r (bpow ey)); [| lra].
    replace (V * B * bpow ey)%R with (V * (B * bpow ey))%R by ring.
    rewrite HVB. ring. }
  pose proof (Z_div_mod m' (Zpos my)) as Hdm.
  destruct (Z.div_eucl m' (Zpos my)) as [q rr].
  destruct Hdm as [Eq Hrr]; [lia |].
  assert (Hq : 0 <= q) by nia.
  pose proof (bpow_pos e') as Hpe'.
  assert (Erq : (V * B = (B * IZR q + IZR rr) * bpow e')%R).
  { rewrite HVm, Eq, plus_IZR, mult_IZR. reflexivity. }
  assert (Hrr0 : (0 <= IZR rr)%R) by (apply IZR_le; lia).
  assert (Hrr1 : (IZR rr < B)%R) by (apply IZR_lt; lia).
  apply round_aux_error; try assumption.
  - apply (Rmult_le_reg_r B); [exact HB |]. rewrite Erq. nra.
  - apply (Rmult_le_reg_r B); [exact HB |]. rewrite Erq. nra.
Qed.

Lemma Rabs_le_inv (a b : R) : (Rabs a <= b)%R -> (- b <= a <= b)%R.
Proof. unfold Rabs. destruct (Rcase_abs a); lra. Qed.

Lemma round_half_even_error n d :
  0 < d -> 0 <= n ->
  0 <= round_half_even n d
  /\ - d <= 2 * (round_half_even n d * d - n) <= d.
Proof.
  intros Hd Hn. unfold round_half_even.
  pose proof (Z.div_mod n d) as Hdm.
  pose proof (Z.mod_pos_bound n d Hd) as Hr.
  assert (Hq : 0 <= n / d) by (apply Z.div_pos; lia).
  set (q := n / d) in *. set (r := n mod d) in *.
  assert (En : n = d * q + r) by (apply Hdm; lia). clear Hdm.
  destruct (Z.compare_spec (2 * r) d) as [E | E | E];
    [destruct (Z.even q) | |]; split; nia.
Qed.

(** The error of [round(x, 6)] for a float below [2^(L+1)]: half a
    unit of the sixth decimal place, and the rounding of the division
    by 10^6 that gives the result. *)
Lemma round6_error x L :
  0 <= L -> L <= 1000 -> is_finite x = true ->
  (absR x + / 2000000 + bpow (L - 52) < bpow (L + 1))%R ->
  let y := round6 x in
  is_finite y = true /\ sign_of y = sign_of x
  /\ (Rabs (absR y - absR x) <= / 2000000 + 2 * bpow (L - 52))%R.
Proof.
  intros HL HL' Hfin Hroom y. subst y.
  pose proof (bpow_pos (L - 52)) as Hunit.
  assert (Hsame : is_finite x = true /\ sign_of x = sign_of x
                  /\ (Rabs (absR x - absR x) <= / 2000000 + 2 * bpow (L - 52))%R).
  { split; [exact Hfin |]. split; [reflexivity |].
    rewrite Rminus_diag, Rabs_R0. lra. }
  destruct x as [s | s | | s m e]; try discriminate Hfin; try exact Hsame.
  unfold round6, round_nd.
  destruct (Z.leb_spec 0 e) as [He | He]; [exact Hsame |]. clear Hsame.
  change (10 ^ Zpos 6) with 1000000.
  destruct (round_half_even_error (Zpos m * 1000000) (2 ^ (- e))) as [Hk Herr];
    [apply Z.pow_pos_nonneg; lia | lia |].
  set (k := round_half_even (Zpos m * 1000000) (2 ^ (- e))) in *.
  change (absR (S754_finite s m e)) with (IZR (Zpos m) * bpow e)%R in *.
  pose proof (bpow_pos e) as Hpe.
  assert (Hinv : (IZR (2 ^ (- e)) * bpow e = 1)%R).
  { rewrite <- bpow_IZR by lia. rewrite <- bpow_add.
    replace (- e + e) with 0 by lia. reflexivity. }
  assert (Hk2 : (Rabs (IZR k / 1000000 - IZR (Zpos m) * bpow e) <= / 2000000)%R).
  { destruct Herr as [Hl Hu]. apply IZR_le in Hl, Hu.
    rewrite opp_IZR in Hl.
    rewrite mult_IZR, minus_IZR, !mult_IZR in Hl, Hu.
    set (D := IZR (2 ^ (- e))) in *. set (M := IZR (Zpos m)) in *.
    assert (HD : (0 < D)%R).
    { unfold D. apply IZR_lt. apply Z.pow_pos_nonneg; lia. }
    assert (Hl2 := Rmult_le_compat_r (bpow e) _ _ (Rlt_le _ _ Hpe) Hl).
    assert (Hu2 := Rmult_le_compat_r (bpow e) _ _ (Rlt_le _ _ Hpe) Hu).
    assert (EkDE : (IZR k * D * bpow e = IZR k)%R).
    { rewrite Rmult_assoc, Hinv. ring. }
    apply Rabs_le. split; lra. }
  apply Rabs_le_inv in Hk2.
  destruct k as [| p | p] eqn:Ek; [| | lia].
  - split; [reflexivity |]. split; [reflexivity |].
    simpl absR. apply Rabs_le. unfold Rdiv in Hk2. rewrite Rmult_0_l in Hk2.
    lra.
  - destruct (SFdiv_error s p 0 false (Pos.pow 10 6) 0 L) as (Hf & Hs & Hd);
      [lia | lia | |].
    + rewrite bpow_0, !Rmult_1_r.
      change (IZR (Zpos (10 ^ 6))) with 1000000%R. lra.
    + rewrite bpow_0, !Rmult_1_r in Hd.
      change (IZR (Zpos (10 ^ 6))) with 1000000%R in Hd.
      split; [exact Hf |]. split; [rewrite Hs; apply xorb_false_r |].
      apply Rabs_le_inv in Hd. apply Rabs_le. lra.
Qed.

Lemma valR_abs x :
  is_finite x = true -> valR x = (sgnR (sign_of x) * absR x)%R.
Proof.
  destruct x as [s | s | | s m e]; try discriminate; intros _; unfold valR; simpl.
  - lra.
  - destruct s; simpl; [rewrite opp_IZR |]; lra.
Qed.

Lemma scaled_IZR m e k :
  k <= e -> (IZR (m * 2 ^ (e - k)) * bpow k = IZR m * bpow e)%R.
Proof.
  intros Hk. rewrite mult_IZR, <- bpow_IZR by lia.
  rewrite Rmult_assoc, <- bpow_add. do 2 f_equal. lia.
Qed.

Lemma dyadic_le m1 e1 m2 e2 k :
  k <= e1 -> k <= e2 ->
  (m1 * 2 ^ (e1 - k) <=? m2 * 2 ^ (e2 - k)) = true
  <-> (IZR m1 * bpow e1 <= IZR m2 * bpow e2)%R.
Proof.
  intros H1 H2. rewrite Z.leb_le.
  rewrite <- (scaled_IZR m1 e1 k H1), <- (scaled_IZR m2 e2 k H2).
  pose proof (bpow_pos k) as Hk. split.
  - intros H. apply IZR_le in H. nra.
  - intros H. apply le_IZR. nra.
Qed.

Lemma residual_value a x b :
  let '(n, e) := residual a x b in
  (IZR n * bpow e = valR a * valR x + valR b)%R.
Proof.
  unfold residual, valR.
  destruct (exact_value a) as [ma ea], (exact_value x) as [mx ex],
    (exact_value b) as [mb eb]. cbn [fst snd].
  set (e := Z.min (ea + ex) eb).
  rewrite plus_IZR, Rmult_plus_distr_r.
  rewrite (scaled_IZR (ma * mx) (ea + ex) e) by lia.
  rewrite (scaled_IZR mb eb e) by lia.
  rewrite mult_IZR, bpow_add. ring.
Qed.

Lemma bpow_m23 : bpow (-23) = (/ 8388608)%R.
Proof.
  assert (H : (bpow (-23) * bpow 23 = 1)%R).
  { rewrite <- bpow_add. reflexivity. }
  rewrite (bpow_IZR 23) in H by lia. change (2 ^ 23) with 8388608 in H.
  apply (Rmult_eq_reg_r 8388608); [| lra]. rewrite H. field.
Qed.

Lemma bpow_30 : bpow 30 = 1073741824%R.
Proof. rewrite bpow_IZR by lia. reflexivity. Qed.

(** The solution of the linear solver, on the exact values. *)
Lemma linear_error sa ma ea b :
  let a := S754_finite sa ma ea in
  is_finite b = true ->
  quotient_moderate a b = true ->
  let x := round6 (SFdiv prec emax (fneg b) a) in
  is_finite x = true
  /\ (Rabs (valR a * valR x + valR b) * 1000000 <= Rabs (valR a))%R.
Proof.
  intros a Hfb Hmod x.
  pose proof (bpow_pos ea) as Hpea.
  assert (HA : (0 < IZR (Zpos ma) * bpow ea)%R).
  { apply Rmult_lt_0_compat; [apply IZR_lt; lia | exact Hpea]. }
  assert (EvA : valR a = (sgnR sa * (IZR (Zpos ma) * bpow ea))%R).
  { apply (valR_abs a). reflexivity. }
  assert (EabsA : Rabs (valR a) = (IZR (Zpos ma) * bpow ea)%R).
  { rewrite EvA. destruct sa; simpl sgnR.
    - rewrite Rabs_left1; lra.
    - rewrite Rabs_pos_eq; lra. }
  destruct b as [sb | sb | | sb mb eb]; try discriminate Hfb.
  - (* b is a zero: the solution is a zero *)
    assert (Ex : x = S754_zero (xorb (negb sb) sa)) by reflexivity.
    split; [rewrite Ex; reflexivity |].
    rewrite Ex. unfold valR at 2 3. simpl.
    rewrite !Rmult_0_l, Rmult_0_r, Rplus_0_r, Rabs_R0. lra.
  - set (A := (IZR (Zpos ma) * bpow ea)%R) in *.
    set (B := (IZR (Zpos mb) * bpow eb)%R).
    pose proof (bpow_pos eb) as Hpeb.
    assert (HB : (0 < B)%R).
    { apply Rmult_lt_0_compat; [apply IZR_lt; lia | exact Hpeb]. }
    assert (HBA : (B <= 100000000 * A)%R).
    { unfold quotient_moderate in Hmod. cbn [exact_value a] in Hmod.
      rewrite Z.mul_assoc in Hmod.
      apply (dyadic_le _ eb _ ea (Z.min ea eb)) in Hmod; [| lia | lia].
      rewrite mult_IZR in Hmod.
      replace (Z.abs (cond_Zopp sb (Zpos mb))) with (Zpos mb) in Hmod
        by (destruct sb; reflexivity).
      replace (Z.abs (cond_Zopp sa (Zpos ma))) with (Zpos ma) in Hmod
        by (destruct sa; reflexivity).
      change (IZR (10 ^ 8)) with 100000000%R in Hmod.
      unfold A, B. lra. }
    set (V := (B / A)%R).
    assert (HV : (0 < V <= 100000000)%R).
    { unfold V. split; [apply Rdiv_lt_0_compat; lra |].
      apply (Rmult_le_reg_r A); [lra |]. unfold Rdiv.
      rewrite Rmult_assoc, Rinv_l by lra. lra. }
    pose proof bpow_m23 as E23. pose proof bpow_30 as E30.
    destruct (SFdiv_error (negb sb) mb eb sa ma ea 29) as (Hfq & Hsq & Heq);
      [lia | lia | |].
    { fold A B V. change (29 - 52) with (-23). change (29 + 1) with 30.
      rewrite E23, E30. lra. }
    fold A B V in Heq. change (29 - 52) with (-23) in Heq.
    change (fneg (S754_finite sb mb eb)) with (S754_finite (negb sb) mb eb) in x.
    set (q := SFdiv prec emax (S754_finite (negb sb) mb eb)
                (S754_finite sa ma ea)) in *.
    apply Rabs_le_inv in Heq.
    destruct (round6_error q 29) as (Hfx & Hsx & Hex); [lia | lia | exact Hfq | |].
    { change (29 - 52) with (-23). change (29 + 1) with 30.
      rewrite E23, E30. rewrite E23 in Heq. lra. }
    change (round6 q) with x in Hfx, Hsx, Hex. change (29 - 52) with (-23) in Hex.
    apply Rabs_le_inv in Hex. rewrite E23 in Heq, Hex.
    split; [exact Hfx |].
    rewrite (valR_abs x Hfx), Hsx, Hsq, EabsA.
    assert (EvB : valR (S754_finite sb mb eb) = (sgnR sb * B)%R).
    { apply (valR_abs (S754_finite sb mb eb)). reflexivity. }
    rewrite EvA, EvB.
    assert (EB : B = (V * A)%R).
    { unfold V, Rdiv. rewrite Rmult_assoc, Rinv_l by lra. ring. }
    rewrite EB.
    assert (Hclose : (- / 1000000 <= absR x - V <= / 1000000)%R) by lra.
    set (X := absR x) in *.
    destruct sa, sb; simpl sgnR; apply (Rmult_le_reg_r (/ 1000000)); try lra;
      rewrite Rmult_assoc, Rinv_r, Rmult_1_r by lra; apply Rabs_le; split; nra.
Qed.

End RoundingFacts.

(** ** Algebra: the two solvers *)

Module AlgebraFacts.
Import Algebra Exact PyFloatFacts RoundingFacts.







(** The comparison has no tolerance: with a = 1, b = 0.0001, c = 0 the
    discriminant 1e-8 is shown as 0.0, and the reply still has two real
    roots. *)
Lemma quadratic_no_tolerance :
  exists x1 x2,
    solve_quadratic pow_rounded
      (QuadraticRequest (Some (NInt 1))
         (Some (NFloat (nearest_ratio 1 10000))) (Some (NInt 0)))
    = Json (QuadraticBody zero (two_real x1 x2)).
Proof. eexists _, _. vm_compute. reflexivity. Qed.

(** A leading coefficient that compares equal to zero is rejected. *)
Lemma quadratic_rejects_zero libm_pow data a :
  get_float (quad_a data) 0 = Ok a ->
  (exists b, get_float (quad_b data) 0 = Ok b) ->
  (exists c, get_float (quad_c data) 0 = Ok c) ->
  feq a zero = true ->
  solve_quadratic libm_pow data = JsonError 400 "Coefficient 'a' cannot be zero" None.
Proof.
  intros Ha [b Hb] [c Hc] Hz. unfold solve_quadratic, solve_quadratic_view.
  rewrite Ha, Hb, Hc. monad. rewrite Hz. reflexivity.
Qed.

(** *** The linear solver *)

(** For every [a] different from zero and every [b] the linear solver
    answers with a solution, and the solution is the float quotient
    [-b/a] rounded to 6 decimal places. *)
Lemma linear_solution_is_rounded_quotient data a b :
  get_float (lin_a data) 0 = Ok a ->
  get_float (lin_b data) 0 = Ok b ->
  feq a zero = false ->
  solve_linear data = Json (LinearBody (round6 (SFdiv prec emax (fneg b) a))).
Proof.
  intros Ha Hb Hnz. unfold solve_linear, solve_linear_view.
  rewrite Ha, Hb. monad. rewrite Hnz. unfold fdiv. rewrite Hnz. reflexivity.
Qed.

(** C4, as amended.  For finite [a] and [b] with [a] different from
    zero and [abs(b) <= 1e8 * abs(a)], the linear solver answers with
    the solution [x = round(-b/a, 6)], a finite float, and the exact
    value of [a*x + b] is within [abs(a) * 1e-6] of zero: the residual
    is bounded by the rounding of [x] to 6 places, scaled by [a]. *)
Theorem linear_residual_scales_with_a data a b :
  get_float (lin_a data) 0 = Ok a ->
  get_float (lin_b data) 0 = Ok b ->
  is_finite a = true ->
  is_finite b = true ->
  feq a zero = false ->
  quotient_moderate a b = true ->
  let x := round6 (SFdiv prec emax (fneg b) a) in
  solve_linear data = Json (LinearBody x)
  /\ is_finite x = true
  /\ within_1e6_of a (residual a x b) = true.
Proof.
  intros Ha Hb Hfa Hfb Hnz Hmod x.
  split; [apply linear_solution_is_rounded_quotient; assumption |].
  destruct a as [sa | sa | | sa ma ea]; try discriminate Hfa.
  { destruct sa; discriminate Hnz. }
  destruct (linear_error sa ma ea b Hfb Hmod) as [Hfx Hres].
  fold x in Hfx, Hres. split; [exact Hfx |].
  pose proof (residual_value (S754_finite sa ma ea) x b) as Hval.
  unfold within_1e6_of.
  destruct (residual (S754_finite sa ma ea) x b) as [n e].
  cbn [exact_value]. rewrite <- Hval in Hres.
  replace (Z.abs n * 2 ^ (e - Z.min ea e) * 10 ^ 6)
    with (Z.abs n * 10 ^ 6 * 2 ^ (e - Z.min ea e)) by ring.
  apply (dyadic_le _ e _ ea (Z.min ea e)); [lia | lia |].
  rewrite mult_IZR, !abs_IZR. change (IZR (10 ^ 6)) with 1000000%R.
  unfold valR in Hres. cbn [exact_value fst snd] in Hres.
  pose proof (bpow_pos e) as Hpe. pose proof (bpow_pos ea) as Hpea.
  rewrite !Rabs_mult in Hres.
  rewrite (Rabs_pos_eq (bpow e)), (Rabs_pos_eq (bpow ea)) in Hres by lra.
  lra.
Qed.

(** 30x + 1 = 0: the solution is -0.033333, and 30·x + 1, about 1e-5,
    is within 30e-6 of zero. *)
Lemma linear_residual_example :
  let a := nearest_Z 30 in
  let b := nearest_Z 1 in
  let x := S754_finite true 4803791564132504 (-57) in
  solve_linear (LinearRequest (Some (NInt 30)) (Some (NInt 1)))
  = Json (LinearBody x)
  /\ is_finite x = true
  /\ within_1e6_of a (residual a x b) = true.
Proof.
  apply (linear_residual_scales_with_a
           (LinearRequest (Some (NInt 30)) (Some (NInt 1)))
           (nearest_Z 30) (nearest_Z 1));
    reflexivity.
Defined.

(** The bound on the quotient cannot be dropped: for 3x + 1e30 = 0 the
    solution is a float of magnitude 3.3e29, which [round] leaves as it
    is, and 3·x + 1e30 is not within 3e-6 of zero. *)
Lemma linear_residual_large_quotient :
  let a := nearest_Z 3 in
  let b := nearest_Z (10 ^ 30) in
  let x := round6 (SFdiv prec emax (fneg b) a) in
  quotient_moderate a b = false
  /\ solve_linear (LinearRequest (Some (NInt 3)) (Some (NInt (10 ^ 30))))
     = Json (LinearBody x)
  /\ within_1e6_of a (residual a x b) = false.
Proof. vm_compute. repeat split; reflexivity. Qed.

(** C4, as stated, fails: for 30x + 1 = 0 the solver answers
    x = -0.033333, and 30·x + 1 is about 1e-5, more than 1e-6 away from
    zero, both exactly and when evaluated with floats. *)
Lemma linear_residual_counterexample :
  let a := nearest_Z 30 in
  let b := nearest_Z 1 in
  let x := S754_finite true 4803791564132504 (-57) in
  get_float (Some (NInt 30)) 0 = Ok a
  /\ get_float (Some (NInt 1)) 0 = Ok b
  /\ feq a zero = false
  /\ solve_linear (LinearRequest (Some (NInt 30)) (Some (NInt 1)))
     = Json (LinearBody x)
  /\ within_1e6 (residual a x b) = false
  /\ residual_test a x b = false.
Proof. vm_compute. repeat split; reflexivity. Qed.

End AlgebraFacts.

(** ** Geometry: which dimensions are checked *)

Module GeometryFacts.
Import Geometry.

Lemma circle_rejects libm_pow data radius :
  get_float (c_radius data) 0 = Ok radius ->
  fle radius zero = true ->
  circle libm_pow data = JsonError 400 "Radius must be positive" None.
Proof.
  intros Hr Hle. unfold circle, circle_view. rewrite Hr. monad.
  rewrite Hle. reflexivity.
Qed.

Lemma rectangle_rejects libm_pow data length width :
  get_float (r_length data) 0 = Ok length ->
  get_float (r_width data) 0 = Ok width ->
  fle length zero = true \/ fle width zero = true ->
  rectangle libm_pow data = JsonError 400 "Dimensions must be positive" None.
Proof.
  intros Hl Hw Hle. unfold rectangle, rectangle_view. rewrite Hl, Hw. monad.
  replace (fle length zero || fle width zero) with true; [reflexivity |].
  symmetry. apply orb_true_iff. exact Hle.
Qed.

Lemma cube_rejects libm_pow data side :
  get_float (c_side data) 0 = Ok side ->
  fle side zero = true ->
  cube libm_pow data = JsonError 400 "Side length must be positive" None.
Proof.
  intros Hs Hle. unfold cube, cube_view. rewrite Hs. monad.
  rewrite Hle. reflexivity.
Qed.

Lemma sphere_rejects libm_pow data radius :
  get_float (s_radius data) 0 = Ok radius ->
  fle radius zero = true ->
  sphere libm_pow data = JsonError 400 "Radius must be positive" None.
Proof.
  intros Hr Hle. unfold sphere, sphere_view. rewrite Hr. monad.
  rewrite Hle. reflexivity.
Qed.

(** The triangle checks its base and its height. *)
Lemma triangle_rejects_base_height data base height side_a side_b :
  get_float (t_base data) 0 = Ok base ->
  get_float (t_height data) 0 = Ok height ->
  get_side (t_side_a data) base = Ok side_a ->
  get_side (t_side_b data) base = Ok side_b ->
  fle base zero = true \/ fle height zero = true ->
  triangle data = JsonError 400 "Base and height must be positive" None.
Proof.
  intros Hb Hh Ha Hsb Hle. unfold triangle, triangle_view.
  rewrite Hb, Hh. monad. rewrite Ha, Hsb.
  replace (fle base zero || fle height zero) with true; [reflexivity |].
  symmetry. apply orb_true_iff. exact Hle.
Qed.

(** The two sides are never compared with zero: whatever they are, a
    triangle with a positive base and height is answered. *)
Lemma triangle_ignores_sides data base height side_a side_b :
  get_float (t_base data) 0 = Ok base ->
  get_float (t_height data) 0 = Ok height ->
  get_side (t_side_a data) base = Ok side_a ->
  get_side (t_side_b data) base = Ok side_b ->
  fle base zero = false -> fle height zero = false ->
  triangle data =
    Json (TriangleBody base height
            (round6 (fmul (fmul lit_0_5 base) height))
            (round6 (fadd (fadd base side_a) side_b))).
Proof.
  intros Hb Hh Ha Hsb Hbp Hhp. unfold triangle, triangle_view.
  rewrite Hb, Hh. monad. rewrite Ha, Hsb, Hbp, Hhp. reflexivity.
Qed.

(** C3 at the failing input.  The request
    [{"base": 3, "height": 4, "side_a": -5, "side_b": 1}] has a negative
    dimension, and the reply is a success body with the metrics: area
    6.0 and perimeter -1.0. *)
Theorem triangle_accepts_negative_side :
  fle (nearest_Z (-5)) zero = true
  /\ triangle (TriangleRequest (Some (NInt 3)) (Some (NInt 4))
                 (Some (NInt (-5))) (Some (NInt 1)))
     = Json (TriangleBody (nearest_Z 3) (nearest_Z 4)
               (nearest_Z 6) (nearest_Z (-1))).
Proof. split; reflexivity. Qed.

End GeometryFacts.

(** ** History *)

Module HistoryFacts.
Import AuditLog History PyStr.

Section Facts.
Context {I O : Type}.
Implicit Types (h : list (entry I O)).

Lemma slice_from_zero {A} (l : list A) : slice_from 0 l = l.
Proof.
  unfold slice_from. simpl.
  replace (Z.min 0 (Z.of_nat (length l))) with 0 by lia. reflexivity.
Qed.

Lemma slice_from_negative {A} (n : Z) (l : list A) :
  0 < n -> slice_from (- n) l = last_n (Z.to_nat n) l.
Proof.
  intros Hn. unfold slice_from, last_n.
  destruct (Z.ltb_spec (- n) 0) as [_ | Hge]; [| lia].
  f_equal. lia.
Qed.

(** For a limit of at least 1 the reply holds the most recent
    [min limit (length of the log)] entries, oldest first. *)
Lemma get_history_positive_limit (s : string) (n : Z) h :
  int_of_str s = Ok n -> 0 < n ->
  get_history (Some s) h = Json (HistoryBody (length h) (last_n (Z.to_nat n) h))
  /\ length (last_n (Z.to_nat n) h) = Nat.min (Z.to_nat n) (length h).
Proof.
  intros Hs Hn. unfold get_history, get_history_view. rewrite Hs. monad.
  rewrite slice_from_negative by exact Hn. split; [reflexivity |].
  unfold last_n. rewrite length_drop. lia.
Qed.

(** Without the parameter the limit is 20. *)
Lemma get_history_default h :
  get_history None h = Json (HistoryBody (length h) (last_n 20 h)).
Proof.
  unfold get_history, get_history_view. monad.
  rewrite (slice_from_negative 20) by lia. reflexivity.
Qed.

(** C8 at the failing input.  With [limit=0] the slice is
    [query_history[-0:]], the whole log: the reply holds every entry,
    not zero entries. *)
Theorem get_history_limit_zero_returns_all h :
  get_history (Some "0"%string) h = Json (HistoryBody (length h) h).
Proof.
  unfold get_history, get_history_view.
  change (int_of_str "0") with (Ok 0 : result Z). monad.
  change (- 0) with 0. rewrite slice_from_zero. reflexivity.
Qed.

End Facts.

(** A log of three entries and [limit=0]: three entries come back. *)
Lemma get_history_limit_zero_example :
  let e i := Entry ""%string "/api/arithmetic"%string i i in
  history_len (get_history (Some "0"%string) [e 1%nat; e 2%nat; e 3%nat])
  = Some 3%nat.
Proof. reflexivity. Qed.

End HistoryFacts.

(** ** Statistics: the mode *)

Module StatisticsFacts.
Import Statistics Summary.
Local Open Scope nat_scope.

Lemma finite_eq_spec sx mx ex sy my ey :
  SFeqb (S754_finite sx mx ex) (S754_finite sy my ey) = true
  <-> sx = sy /\ mx = my /\ ex = ey.
Proof.
  unfold SFeqb, SFcompare.
  change (Pos.compare_cont Eq mx my) with (Pos.compare mx my).
  destruct (Z.compare_spec ex ey) as [He | He | He];
    destruct (Pos.compare_spec mx my) as [Hm | Hm | Hm];
    destruct sx, sy; simpl; split;
    try discriminate; try (intros (? & ? & ?)); try discriminate;
    try lia; auto.
Qed.

Lemma key_eq_spec x y : key_eq x y = true <-> key_of x = key_of y.
Proof.
  destruct x as [sx | sx | | sx mx ex], y as [sy | sy | | sy my ey];
    try (unfold key_eq, feq; cbn [is_nan andb key_of];
         rewrite orb_false_r, finite_eq_spec;
         split; [intros (-> & -> & ->); reflexivity
                | intros H; inversion H; auto]);
    try destruct sx; try destruct sy;
    split; try reflexivity; try discriminate; intros H; discriminate H.
Qed.

Lemma key_eq_refl x : key_eq x x = true.
Proof. apply key_eq_spec. reflexivity. Qed.

Lemma key_eq_sym x y : key_eq x y = key_eq y x.
Proof.
  apply eq_true_iff_eq. rewrite !key_eq_spec. split; congruence.
Qed.

Lemma key_eq_trans x y z :
  key_eq x y = true -> key_eq y z = true -> key_eq x z = true.
Proof. rewrite !key_eq_spec. congruence. Qed.

(** Equal keys are interchangeable on either side of [key_eq]. *)
Lemma key_eq_congr_l x y z : key_eq x y = true -> key_eq x z = key_eq y z.
Proof.
  intros H. apply eq_true_iff_eq. rewrite key_eq_spec in H.
  rewrite !key_eq_spec. split; congruence.
Qed.

Lemma key_eq_congr_r x y z : key_eq x y = true -> key_eq z x = key_eq z y.
Proof.
  intros H. rewrite (key_eq_sym z x), (key_eq_sym z y). apply key_eq_congr_l, H.
Qed.


(** *** The counter *)

Lemma occurrences_cons x y l :
  occurrences x (y :: l) = (if key_eq x y then 1 else 0) + occurrences x l.
Proof. unfold occurrences. simpl. destruct (key_eq x y); reflexivity. Qed.

Lemma occurrences_congr x y l :
  key_eq x y = true -> occurrences x l = occurrences y l.
Proof.
  intros H. induction l as [| z l IH]; [reflexivity |].
  rewrite !occurrences_cons, IH, (key_eq_congr_l x y z H). reflexivity.
Qed.

Lemma count_of_bump x y freq :
  count_of x (bump y freq) = count_of x freq + (if key_eq x y then 1 else 0).
Proof.
  induction freq as [| [k v] rest IH]; simpl.
  - rewrite (key_eq_sym y x). destruct (key_eq x y); reflexivity.
  - destruct (key_eq k y) eqn:Eky; simpl.
    + rewrite <- (key_eq_congr_r k y x Eky), (key_eq_sym x k).
      destruct (key_eq k x); lia.
    + destruct (key_eq k x) eqn:Ekx; [| exact IH].
      assert (Hxk : key_eq x k = true) by (rewrite key_eq_sym; exact Ekx).
      rewrite (key_eq_congr_l x k y Hxk), Eky. lia.
Qed.

Lemma existsb_keys_bump (P : float -> bool) y freq :
  existsb P (keys (bump y freq)) = true ->
  existsb P (keys freq) = true \/ (P y = true /\ existsb (fun k => key_eq k y) (keys freq) = false).
Proof.
  induction freq as [| [k v] rest IH]; simpl.
  - rewrite orb_false_r. auto.
  - destruct (key_eq k y) eqn:Eky; simpl.
    + auto.
    + intros H. apply orb_true_iff in H as [H | H].
      * left. rewrite H. reflexivity.
      * destruct (IH H) as [H' | [H' H'']].
        -- left. rewrite H'. apply orb_true_r.
        -- right. auto.
Qed.

Lemma bump_well_formed y freq : well_formed freq -> well_formed (bump y freq).
Proof.
  intros [Hd Hpos]. induction freq as [| [k v] rest IH].
  - split; [reflexivity |]. repeat constructor.
  - simpl in Hd. apply andb_prop in Hd as [Hk Hd].
    inversion Hpos as [| ? ? Hv Hrest]; subst.
    simpl. destruct (key_eq k y) eqn:Eky.
    + split; [simpl; rewrite Hk, Hd; reflexivity |].
      constructor; [simpl in *; lia | exact Hrest].
    + destruct (IH Hd Hrest) as [Hd' Hpos'].
      split; [| constructor; assumption].
      simpl. fold (keys (bump y rest)). rewrite Hd', andb_true_r.
      apply negb_true_iff. apply not_true_is_false. intros Hex.
      apply existsb_keys_bump in Hex as [Hex | [Hex _]].
      * fold (keys rest) in Hk. rewrite Hex in Hk. discriminate Hk.
      * rewrite Hex in Eky. discriminate Eky.
Qed.

Lemma total_bump y freq : total (bump y freq) = S (total freq).
Proof.
  induction freq as [| [k v] rest IH]; simpl; [reflexivity |].
  destruct (key_eq k y); simpl; [reflexivity |]. rewrite IH. lia.
Qed.

Lemma keys_bump_in y freq k :
  In k (keys (bump y freq)) -> In k (keys freq) \/ k = y.
Proof.
  induction freq as [| [k' v] rest IH]; simpl.
  - intros [H | []]; auto.
  - destruct (key_eq k' y); simpl; [auto |].
    intros [H | H]; [auto |]. destruct (IH H); auto.
Qed.

(** The counter after the whole dataset, from any starting counter. *)
Lemma fold_bump l : forall acc,
  (well_formed acc -> well_formed (fold_left (fun f x => bump x f) l acc))
  /\ total (fold_left (fun f x => bump x f) l acc) = total acc + length l
  /\ (forall x, count_of x (fold_left (fun f x => bump x f) l acc)
                = count_of x acc + occurrences x l)
  /\ (forall k, In k (keys (fold_left (fun f x => bump x f) l acc)) ->
                In k (keys acc) \/ In k l).
Proof.
  induction l as [| y l IH]; intros acc; simpl.
  - split; [tauto |]. split; [lia |]. split; [| tauto].
    intros x. unfold occurrences. simpl. lia.
  - destruct (IH (bump y acc)) as (Hwf & Htot & Hcnt & Hkeys).
    split; [| split; [| split]].
    + intros H. apply Hwf, bump_well_formed, H.
    + rewrite Htot, total_bump. lia.
    + intros x. rewrite Hcnt, count_of_bump, occurrences_cons. lia.
    + intros k Hk. destruct (Hkeys k Hk) as [H | H]; [| auto].
      destruct (keys_bump_in y acc k H); auto.
Qed.

Lemma Counter_spec l :
  well_formed (Counter l)
  /\ total (Counter l) = length l
  /\ (forall x, count_of x (Counter l) = occurrences x l)
  /\ (forall k, In k (keys (Counter l)) -> In k l).
Proof.
  destruct (fold_bump l []) as (Hwf & Htot & Hcnt & Hkeys).
  split; [| split; [| split]].
  - apply Hwf. split; [reflexivity | constructor].
  - exact Htot.
  - exact Hcnt.
  - intros k Hk. destruct (Hkeys k Hk) as [[] | H]. exact H.
Qed.


(** *** Well-formed counters *)

Lemma existsb_key_false x l y :
  existsb (key_eq x) l = false -> In y l -> key_eq x y = false.
Proof.
  intros Hex Hin. apply not_true_is_false. intros Heq.
  assert (existsb (key_eq x) l = true) by (apply existsb_exists; eauto).
  congruence.
Qed.

Lemma count_of_member freq k v :
  all_distinct (keys freq) = true -> In (k, v) freq -> count_of k freq = v.
Proof.
  induction freq as [| [k0 v0] rest IH]; simpl; [tauto |].
  intros Hd Hin. apply andb_prop in Hd as [Hk Hd].
  destruct Hin as [Heq | Hin].
  - inversion Heq; subst. rewrite key_eq_refl. reflexivity.
  - apply negb_true_iff in Hk.
    rewrite (existsb_key_false k0 (map fst rest) k Hk).
    + apply IH; assumption.
    + apply in_map_iff. exists (k, v). auto.
Qed.

Lemma count_of_found x freq :
  1 <= count_of x freq ->
  exists k, In (k, count_of x freq) freq /\ key_eq k x = true.
Proof.
  induction freq as [| [k v] rest IH]; simpl; [lia |].
  destruct (key_eq k x) eqn:E.
  - intros _. exists k. auto.
  - intros H. destruct (IH H) as (k' & Hin & Hk'). exists k'. auto.
Qed.

Lemma length_le_total freq :
  Forall (fun kv => 1 <= snd kv) freq -> length freq <= total freq.
Proof.
  induction 1 as [| [k v] rest Hv Hrest IH]; simpl in *; lia.
Qed.

Lemma length_lt_total freq k v :
  Forall (fun kv => 1 <= snd kv) freq -> In (k, v) freq -> 2 <= v ->
  length freq < total freq.
Proof.
  induction 1 as [| [k0 v0] rest Hv Hrest IH]; simpl; [tauto |].
  intros [Heq | Hin] H2.
  - inversion Heq; subst. pose proof (length_le_total rest Hrest). simpl. lia.
  - specialize (IH Hin H2). simpl in Hv. lia.
Qed.

Lemma max_value_ge freq k v : In (k, v) freq -> v <= max_value freq.
Proof.
  induction freq as [| [k0 v0] rest IH]; simpl; [tauto |].
  intros [Heq | Hin]; [inversion Heq; lia | specialize (IH Hin); lia].
Qed.

Lemma max_value_attained freq :
  freq <> [] -> exists k, In (k, max_value freq) freq.
Proof.
  induction freq as [| [k0 v0] rest IH]; [congruence |]. intros _. simpl.
  destruct rest as [| kv rest'].
  - exists k0. left. simpl. f_equal. lia.
  - destruct IH as [k Hk]; [congruence |].
    destruct (Nat.max_spec v0 (max_value (kv :: rest'))) as [[_ ->] | [_ ->]].
    + exists k. right. exact Hk.
    + exists k0. left. reflexivity.
Qed.

Lemma all_ones_max freq :
  freq <> [] -> Forall (fun kv => snd kv = 1) freq -> max_value freq = 1.
Proof.
  intros Hne Hall. destruct (max_value_attained freq Hne) as [k Hk].
  rewrite List.Forall_forall in Hall. apply (Hall _ Hk).
Qed.

Lemma all_ones_total freq :
  Forall (fun kv => snd kv = 1) freq -> total freq = length freq.
Proof. induction 1 as [| [k v] rest Hv Hrest IH]; simpl in *; lia. Qed.

Lemma filter_all {A} (P : A -> bool) (l : list A) :
  Forall (fun a => P a = true) l -> List.filter P l = l.
Proof.
  induction 1 as [| a l Ha Hl IH]; simpl; [reflexivity |].
  rewrite Ha, IH. reflexivity.
Qed.

Lemma existsb_keys_filter (P : float -> bool) (Q : float * nat -> bool) freq :
  existsb P (keys freq) = false -> existsb P (keys (List.filter Q freq)) = false.
Proof.
  induction freq as [| kv rest IH]; simpl; [reflexivity |].
  intros H. apply orb_false_iff in H as [H1 H2].
  destruct (Q kv); simpl; [rewrite H1 |]; apply IH, H2.
Qed.

Lemma filter_keys_distinct (Q : float * nat -> bool) freq :
  all_distinct (keys freq) = true ->
  all_distinct (keys (List.filter Q freq)) = true.
Proof.
  induction freq as [| kv rest IH]; simpl; [reflexivity |].
  intros H. apply andb_prop in H as [H1 H2].
  destruct (Q kv); simpl; [| apply IH, H2].
  apply andb_true_intro. split; [| apply IH, H2].
  apply negb_true_iff. apply existsb_keys_filter. apply negb_true_iff, H1.
Qed.

(** *** Distinct datasets *)

Lemma occurrences_zero x l :
  existsb (key_eq x) l = false -> occurrences x l = 0.
Proof.
  induction l as [| y l IH]; [reflexivity |]. simpl.
  intros H. apply orb_false_iff in H as [H1 H2].
  rewrite occurrences_cons, H1, (IH H2). reflexivity.
Qed.

Lemma occurrences_member x l : In x l -> 1 <= occurrences x l.
Proof.
  induction l as [| y l IH]; simpl; [tauto |].
  rewrite occurrences_cons. intros [-> | Hin].
  - rewrite key_eq_refl. lia.
  - specialize (IH Hin). lia.
Qed.

Lemma distinct_once l x :
  all_distinct l = true -> In x l -> occurrences x l = 1.
Proof.
  induction l as [| y l IH]; simpl; [tauto |].
  intros Hd Hin. apply andb_prop in Hd as [Hy Hd].
  apply negb_true_iff in Hy. rewrite occurrences_cons.
  destruct Hin as [-> | Hin].
  - rewrite key_eq_refl, (occurrences_zero x l Hy). reflexivity.
  - rewrite (IH Hd Hin), key_eq_sym, (existsb_key_false y l x Hy Hin).
    reflexivity.
Qed.

Lemma repeated_twice l :
  all_distinct l = false -> exists x, In x l /\ 2 <= occurrences x l.
Proof.
  induction l as [| y l IH]; simpl; [discriminate |].
  intros Hd. apply andb_false_iff in Hd as [Hy | Hd].
  - apply negb_false_iff in Hy. apply existsb_exists in Hy as (z & Hz & Hyz).
    exists y. split; [auto |]. rewrite occurrences_cons, key_eq_refl.
    rewrite (occurrences_congr y z l Hyz).
    pose proof (occurrences_member z l Hz). lia.
  - destruct (IH Hd) as (x & Hx & H2). exists x. split; [auto |].
    rewrite occurrences_cons. lia.
Qed.


(** *** The mode *)

Lemma mode_field_unfold dataset :
  mode_field dataset =
    if length (mode_val dataset) <? length dataset
    then Modes (mode_val dataset) else NoMode.
Proof. reflexivity. Qed.

Lemma mode_val_member dataset k :
  In k (mode_val dataset) <->
  In (k, max_value (Counter dataset)) (Counter dataset).
Proof.
  unfold mode_val, keys. rewrite in_map_iff. split.
  - intros ([k' v] & <- & Hin). apply filter_In in Hin as [Hin Hv].
    simpl in *. apply Nat.eqb_eq in Hv. subst v. exact Hin.
  - intros Hin. exists (k, max_value (Counter dataset)). split; [reflexivity |].
    apply filter_In. split; [exact Hin |]. simpl. apply Nat.eqb_refl.
Qed.

Lemma Counter_member dataset k v :
  In (k, v) (Counter dataset) -> In k dataset /\ v = occurrences k dataset.
Proof.
  intros Hin. destruct (Counter_spec dataset) as ([Hd _] & _ & Hcnt & Hkeys).
  split.
  - apply Hkeys. unfold keys. apply in_map_iff. exists (k, v). auto.
  - rewrite <- Hcnt. symmetry. apply count_of_member; assumption.
Qed.

Lemma Counter_covers dataset x :
  In x dataset ->
  exists k, In (k, occurrences x dataset) (Counter dataset) /\ key_eq k x = true.
Proof.
  intros Hin. destruct (Counter_spec dataset) as (_ & _ & Hcnt & _).
  rewrite <- Hcnt. apply count_of_found. rewrite Hcnt.
  apply occurrences_member, Hin.
Qed.

Lemma mode_val_length dataset :
  length (mode_val dataset) <= length (Counter dataset).
Proof. unfold mode_val, keys. rewrite length_map. apply List.filter_length_le. Qed.

Lemma distinct_no_mode dataset :
  all_distinct dataset = true -> mode_field dataset = NoMode.
Proof.
  intros Hd. rewrite mode_field_unfold.
  assert (Hones : Forall (fun kv => snd kv = 1) (Counter dataset)).
  { apply List.Forall_forall. intros [k v] Hin. simpl.
    destruct (Counter_member dataset k v Hin) as [Hk ->].
    apply distinct_once; assumption. }
  destruct (Counter_spec dataset) as (_ & Htot & _ & _).
  rewrite (all_ones_total _ Hones) in Htot.
  assert (Hlen : length (mode_val dataset) = length (Counter dataset)).
  { unfold mode_val.
    destruct (Counter dataset) as [| kv rest] eqn:E; [reflexivity |].
    rewrite (all_ones_max (kv :: rest)) by (congruence || assumption).
    rewrite filter_all; [unfold keys; apply length_map |].
    eapply List.Forall_impl; [| exact Hones]. intros a Ha. simpl in Ha.
    rewrite Ha. reflexivity. }
  rewrite Hlen, Htot. rewrite Nat.ltb_irrefl. reflexivity.
Qed.

Lemma repeated_modes dataset :
  all_distinct dataset = false -> mode_field dataset = Modes (mode_val dataset).
Proof.
  intros Hd. rewrite mode_field_unfold.
  destruct (repeated_twice dataset Hd) as (x & Hx & H2).
  destruct (Counter_covers dataset x Hx) as (k & Hk & _).
  destruct (Counter_spec dataset) as ([_ Hpos] & Htot & _ & _).
  pose proof (length_lt_total _ k _ Hpos Hk H2) as Hlt.
  pose proof (mode_val_length dataset) as Hle.
  replace (length (mode_val dataset) <? length dataset) with true;
    [reflexivity |].
  symmetry. apply Nat.ltb_lt. lia.
Qed.

Lemma mode_val_most_frequent dataset k :
  In k (mode_val dataset) -> In k dataset /\ most_frequent k dataset.
Proof.
  intros Hk. apply mode_val_member in Hk.
  destruct (Counter_member dataset k _ Hk) as [Hin Hmax].
  split; [exact Hin |]. intros y Hy. rewrite <- Hmax.
  destruct (Counter_covers dataset y Hy) as (k' & Hk' & _).
  apply (max_value_ge _ k'), Hk'.
Qed.

Lemma most_frequent_in_mode_val dataset x :
  In x dataset -> most_frequent x dataset ->
  exists k, In k (mode_val dataset) /\ key_eq k x = true.
Proof.
  intros Hx Hmost.
  destruct (Counter_covers dataset x Hx) as (k & Hk & Hkx).
  exists k. split; [| exact Hkx]. apply mode_val_member.
  replace (max_value (Counter dataset)) with (occurrences x dataset);
    [exact Hk |].
  apply Nat.le_antisymm; [apply (max_value_ge _ k), Hk |].
  destruct (max_value_attained (Counter dataset)) as [k' Hk'].
  { intros E. rewrite E in Hk. exact Hk. }
  destruct (Counter_member dataset k' _ Hk') as [Hin' ->].
  apply Hmost, Hin'.
Qed.

Lemma mode_val_distinct dataset : all_distinct (mode_val dataset) = true.
Proof.
  apply filter_keys_distinct.
  destruct (Counter_spec dataset) as ([Hd _] & _). exact Hd.
Qed.

(** The value under the [mode] key, for a converted dataset: "No mode"
    exactly when every element is distinct; otherwise a list, which has
    no value twice, holds only values of the dataset that are tied for
    the highest frequency, and holds every such value. *)
Lemma mode_field_spec (dataset : list float) :
  (mode_field dataset = NoMode <-> all_distinct dataset = true)
  /\ (all_distinct dataset = false ->
      exists values,
        mode_field dataset = Modes values
        /\ all_distinct values = true
        /\ (forall k, In k values -> In k dataset /\ most_frequent k dataset)
        /\ (forall x, In x dataset -> most_frequent x dataset ->
                      exists k, In k values /\ key_eq k x = true)).
Proof.
  split.
  - split.
    + intros Hno. destruct (all_distinct dataset) eqn:Hd; [reflexivity |].
      rewrite (repeated_modes dataset Hd) in Hno. discriminate Hno.
    + apply distinct_no_mode.
  - intros Hd. exists (mode_val dataset).
    split; [apply repeated_modes, Hd |].
    split; [apply mode_val_distinct |].
    split; [apply mode_val_most_frequent | apply most_frequent_in_mode_val].
Qed.

(** *** The handler *)

Lemma handle_errors_json {B} (r : result (reply B)) (body : B) :
  handle_errors r = Json body -> r = Ok (Json body).
Proof.
  destruct r as [x | e]; simpl; [congruence |]. destruct e; discriminate.
Qed.

Lemma bind_ok {A B} (r : result A) (k : A -> result B) (y : B) :
  (r ≫= k) = Ok y -> exists x, r = Ok x /\ k x = Ok y.
Proof. destruct r as [x | e]; [eauto | discriminate]. Qed.

Lemma each_length {A B} (f : A -> result B) (l : list A) (l' : list B) :
  each f l = Ok l' -> length l' = length l.
Proof.
  revert l'. induction l as [| x rest IH]; intros l' H; simpl in H.
  - injection H as <-. reflexivity.
  - apply bind_ok in H as (y & _ & H). apply bind_ok in H as (ys & Hys & H).
    injection H as <-. simpl. f_equal. apply IH, Hys.
Qed.

(** What a success body of the statistics endpoint tells: the request
    carried a dataset that is not empty, every element of it was
    converted to a float, and the fields [dataset_size], [mode], [min]
    and [max] were computed from the converted dataset. *)
Lemma statistics_json libm_pow py_sum py_sorted data body :
  statistics libm_pow py_sum py_sorted data = Json body ->
  exists raw dataset,
    st_data data = Some raw
    /\ each to_float raw = Ok dataset
    /\ dataset <> []
    /\ st_dataset_size body = length dataset
    /\ st_mode body = mode_field dataset
    /\ py_min dataset = Ok (st_min body)
    /\ py_max dataset = Ok (st_max body).
Proof.
  intros H. apply handle_errors_json in H. unfold statistics_view in H.
  destruct (st_data data) as [raw |]; [| discriminate H].
  cbn [default from_option id] in H.
  destruct raw as [| v raw]; [discriminate H |].
  apply bind_ok in H as (dataset & Hconv & H).
  apply bind_ok in H as (count & _ & H).
  apply bind_ok in H as (mean_val & _ & H).
  apply bind_ok in H as (median_val & _ & H).
  apply bind_ok in H as (squares & _ & H).
  apply bind_ok in H as (variance_val & _ & H).
  apply bind_ok in H as (std_dev_val & _ & H).
  apply bind_ok in H as (largest & Hmax & H).
  apply bind_ok in H as (smallest & Hmin & H).
  injection H as <-. exists (v :: raw), dataset.
  split; [reflexivity |]. split; [exact Hconv |].
  split.
  { intros ->. apply each_length in Hconv. discriminate Hconv. }
  cbn [st_dataset_size st_mode st_min st_max]. auto.
Qed.

(** C7, as amended.  Whenever the statistics endpoint answers with a
    success body, the request carried a dataset that is not empty and
    whose elements were all converted to floats, and the body reports
    the mode as "No mode" exactly when the converted elements are all
    distinct; otherwise it reports a list, which has no value twice,
    holds only values of the converted dataset that are tied for the
    highest frequency, and holds every such value. *)
Theorem mode_is_no_mode_iff_all_distinct libm_pow py_sum py_sorted data body :
  statistics libm_pow py_sum py_sorted data = Json body ->
  exists raw dataset,
    st_data data = Some raw
    /\ each to_float raw = Ok dataset
    /\ dataset <> []
    /\ (st_mode body = NoMode <-> all_distinct dataset = true)
    /\ (all_distinct dataset = false ->
        exists values,
          st_mode body = Modes values
          /\ all_distinct values = true
          /\ (forall k, In k values ->
                        In k dataset /\ most_frequent k dataset)
          /\ (forall x, In x dataset -> most_frequent x dataset ->
                        exists k, In k values /\ key_eq k x = true)).
Proof.
  intros H.
  destruct (statistics_json _ _ _ _ _ H)
    as (raw & dataset & Hraw & Hconv & Hne & _ & Hmode & _).
  exists raw, dataset. rewrite Hmode.
  split; [exact Hraw |]. split; [exact Hconv |]. split; [exact Hne |].
  apply mode_field_spec.
Qed.

(** The dataset 1, 2, 2, 3, 3: the modes are 2 and 3. *)
Lemma mode_example :
  let body :=
    StatisticsBody 5 (nearest_ratio 22 10) two (Modes (map nearest_Z [2; 3]%Z))
      (nearest_ratio 56 100) (nearest_ratio 748331 1000000) two
      one three in
  statistics pow_rounded sum_left sorted_stable
    (StatisticsRequest (Some (map NInt [1; 2; 2; 3; 3]%Z)))
  = Json body
  /\ exists raw dataset,
       Some (map NInt [1; 2; 2; 3; 3]%Z) = Some raw
       /\ each to_float raw = Ok dataset
       /\ dataset <> []
       /\ (st_mode body = NoMode <-> all_distinct dataset = true)
       /\ (all_distinct dataset = false ->
           exists values,
             st_mode body = Modes values
             /\ all_distinct values = true
             /\ (forall k, In k values ->
                           In k dataset /\ most_frequent k dataset)
             /\ (forall x, In x dataset -> most_frequent x dataset ->
                           exists k, In k values /\ key_eq k x = true)).
Proof.
  intros body.
  assert (H : statistics pow_rounded sum_left sorted_stable
                (StatisticsRequest (Some (map NInt [1; 2; 2; 3; 3]%Z)))
              = Json body) by (vm_compute; reflexivity).
  split; [exact H |].
  exact (mode_is_no_mode_iff_all_distinct pow_rounded sum_left sorted_stable
           _ body H).
Defined.

(** C7, as stated, fails in two ways.  The dataset 2^53, 2^53 + 1 holds
    two distinct numbers, but both convert to the float 2^53, and the
    mode reported is the list with that float, not "No mode".  (All the
    deviations from the mean are zero, so the platform power is not
    called.)  The dataset 1e200, 0 holds two distinct numbers as well,
    and the reply is the 500 error, because the square of a deviation
    overflows: no mode is reported. *)
Lemma mode_counterexample :
  let big := nearest_Z (2 ^ 53) in
  (2 ^ 53 <> 2 ^ 53 + 1)%Z
  /\ statistics pow_rounded sum_left sorted_stable
       (StatisticsRequest (Some [NInt (2 ^ 53); NInt (2 ^ 53 + 1)]))
     = Json (StatisticsBody 2 big big (Modes [big]) zero zero zero big big)
  /\ statistics pow_rounded sum_left sorted_stable
       (StatisticsRequest (Some [NInt (10 ^ 200); NInt 0]))
     = JsonError 500 "Internal server error" (Some OverflowError).
Proof. vm_compute. repeat split; try reflexivity. discriminate. Qed.

End StatisticsFacts.

(** ** Quiz *)

Module QuizFacts.
Import Quiz PyStr.
Local Open Scope string_scope.

(** *** What the validator does with a token *)

Lemma validate_quiz_verdict t ans u c (ok : bool) :
  get_float ans 0 = Ok u ->
  recompute t = Ok (Some c) ->
  judge u c = Ok ok ->
  validate_quiz (ValidateRequest (Some t) ans)
  = Json (Verdict ok u (round6_num c)).
Proof.
  intros Hu Hc Hj. unfold validate_quiz, validate_quiz_view.
  cbn [v_answer_id v_answer default from_option id]. rewrite Hu. monad.
  unfold recompute in Hc. rewrite Hc. rewrite Hj. reflexivity.
Qed.

Lemma split_nonempty sep s : exists p ps, split sep s = p :: ps.
Proof.
  destruct s as [| c s]; simpl; [eauto |].
  destruct (Ascii.eqb c sep); [eauto |].
  destruct (split sep s); eauto.
Qed.

(** A token whose first field is none of the three family tags is
    answered with the 400 reply of the final [else]. *)
Lemma validate_quiz_unknown_family t ans u tag rest :
  get_float ans 0 = Ok u ->
  split "_" t = tag :: rest ->
  String.eqb tag "arithmetic" = false ->
  String.eqb tag "algebra" = false ->
  String.eqb tag "circle" = false ->
  validate_quiz (ValidateRequest (Some t) ans)
  = JsonError 400 "Invalid answer_id" None.
Proof.
  intros Hu Hs H1 H2 H3. unfold validate_quiz, validate_quiz_view.
  cbn [v_answer_id v_answer default from_option id]. rewrite Hu. monad.
  rewrite Hs. unfold derive. cbn [part lookup list_lookup]. monad.
  rewrite H1, H2, H3. reflexivity.
Qed.

(** A field that is not a number makes [int()] raise [ValueError],
    which [handle_errors] answers with a 400. *)
Lemma validate_quiz_non_numeric_field :
  validate_quiz (ValidateRequest (Some "arithmetic_x_2_add") (Some (NInt 3)))
  = JsonError 400 "Invalid input" (Some ValueError).
Proof. reflexivity. Qed.

(** C6 at the failing inputs.  A token with an operation outside
    [add], [subtract], [multiply] raises [KeyError], and a token with
    too few fields raises [IndexError]; [handle_errors] answers both
    with status 500. *)
Theorem validate_quiz_malformed_token_500 :
  validate_quiz (ValidateRequest (Some "arithmetic_1_2_divide") (Some (NInt 3)))
  = JsonError 500 "Internal server error" (Some KeyError)
  /\ validate_quiz (ValidateRequest (Some "arithmetic_1") (Some (NInt 3)))
     = JsonError 500 "Internal server error" (Some IndexError)
  /\ validate_quiz (ValidateRequest (Some "algebra_3") (Some (NInt 3)))
     = JsonError 500 "Internal server error" (Some IndexError).
Proof. repeat split; reflexivity. Qed.

(** *** A request without the [answer] field *)




(** 1 + 2 = 3 is not within 0.01 of 0: the verdict is [correct = false]. *)
Lemma validate_quiz_missing_answer_false :
  validate_quiz (ValidateRequest (Some "arithmetic_1_2_add") None)
  = Json (Verdict false zero (NInt 3)).
Proof. reflexivity. Qed.

(** *** The tokens of generated questions *)



Lemma split_no_underscore p :
  no_underscore p = true -> split "_" p = [p].
Proof.
  induction p as [| c p IH]; simpl; [reflexivity |].
  intros H. apply andb_prop in H as [Hc Hp].
  destruct (Ascii.eqb c "_"); [discriminate Hc |].
  rewrite (IH Hp). reflexivity.
Qed.

Lemma split_field p rest :
  no_underscore p = true ->
  split "_" (p ++ String "_" rest) = p :: split "_" rest.
Proof.
  induction p as [| c p IH]; simpl; [reflexivity |].
  intros H. apply andb_prop in H as [Hc Hp].
  destruct (Ascii.eqb c "_"); [discriminate Hc |].
  rewrite (IH Hp). reflexivity.
Qed.






(** *** The verdicts, by running the judge on every answer of the
    quiz ranges *)









(** *** Requests that get no structured reply *)

(** C9 at the failing inputs.  [GET /api/quiz?type=foo] matches none of
    the three branches, so the view function returns [None]; and
    [GET /api/history?limit=abc] raises [ValueError] in a view function
    that has no [handle_errors] decorator.  Neither reply is a JSON
    body shaped by the service. *)
Theorem unstructured_replies (rnd : draws) (h : list (AuditLog.entry nat nat)) :
  generate_quiz (Some "foo") rnd = ReturnedNone
  /\ History.get_history (Some "abc") h = Uncaught ValueError
  /\ ~ structured (generate_quiz (Some "foo") rnd)
  /\ ~ structured (History.get_history (Some "abc") h).
Proof.
  assert (H1 : generate_quiz (Some "foo") rnd = ReturnedNone) by reflexivity.
  assert (H2 : History.get_history (Some "abc") h = Uncaught ValueError)
    by reflexivity.
  rewrite H1, H2. repeat split; intros [].
Qed.

End QuizFacts.

(** ** Further properties of the history endpoints *)

Module HistoryMore.
Import AuditLog History PyStr HistoryFacts.

Section Facts.
Context {I O : Type}.
Implicit Types (h : list (entry I O)) (e : entry I O).

Lemma slice_from_drop {A} (k : Z) (l : list A) :
  0 <= k -> slice_from k l = drop (Z.to_nat k) l.
Proof.
  intros Hk. unfold slice_from.
  destruct (Z.ltb_spec k 0) as [Hlt | _]; [lia |].
  destruct (Z.le_gt_cases k (Z.of_nat (length l))) as [Hle | Hgt].
  - rewrite Z.min_l by exact Hle. reflexivity.
  - rewrite Z.min_r by lia. rewrite Nat2Z.id.
    rewrite !drop_ge by lia. reflexivity.
Qed.

Lemma slice_from_suffix {A} (k : Z) (l : list A) :
  exists older, l = older ++ slice_from k l.
Proof.
  unfold slice_from. eexists. symmetry. apply take_drop.
Qed.

(** With a limit of at least 1 the reply holds the most recent
    [min limit (length of the log)] entries, oldest first. *)
Theorem history_positive_limit (s : string) (n : Z) h :
  int_of_str s = Ok n -> 0 < n ->
  get_history (Some s) h = Json (HistoryBody (length h) (last_n (Z.to_nat n) h))
  /\ length (last_n (Z.to_nat n) h) = Nat.min (Z.to_nat n) (length h).
Proof.
  intros Hs Hn. unfold get_history, get_history_view. rewrite Hs. monad.
  rewrite slice_from_negative by exact Hn. split; [reflexivity |].
  unfold last_n. rewrite length_drop. lia.
Qed.

(** Without the [limit] parameter the reply holds the most recent 20
    entries, or the whole log when it is shorter. *)
Theorem history_default_limit h :
  get_history None h = Json (HistoryBody (length h) (last_n 20 h))
  /\ length (last_n 20 h) = Nat.min 20 (length h).
Proof.
  unfold get_history, get_history_view. monad.
  rewrite (slice_from_negative 20) by lia. split; [reflexivity |].
  unfold last_n. rewrite length_drop. lia.
Qed.

(** A negative limit [-k] is the slice [query_history[k:]]: the reply
    holds the log without its [k] oldest entries. *)
Theorem history_negative_limit (s : string) (n : Z) h :
  int_of_str s = Ok n -> n < 0 ->
  get_history (Some s) h
  = Json (HistoryBody (length h) (drop (Z.to_nat (- n)) h)).
Proof.
  intros Hs Hn. unfold get_history, get_history_view. rewrite Hs. monad.
  rewrite slice_from_drop by lia. reflexivity.
Qed.

(** Whatever the limit, a reply of [get_history] reports the length of
    the whole log as [total_queries], and its [history] is a suffix of
    the log: entries are never reordered, repeated or invented. *)
Theorem history_is_suffix limit_arg h b :
  get_history limit_arg h = Json b ->
  total_queries b = length h
  /\ (exists older, h = older ++ history b)
  /\ (length (history b) <= length h)%nat.
Proof.
  unfold get_history, get_history_view.
  destruct (match limit_arg with Some s => int_of_str s | None => Ok 20 end)
    as [limit | e]; monad; [| discriminate].
  intros Hb. injection Hb as <-. cbn [total_queries history].
  destruct (slice_from_suffix (- limit) h) as [older Hold].
  split; [reflexivity |]. split; [exists older; exact Hold |].
  rewrite Hold at 2. rewrite length_app. lia.
Qed.

(** [clear_history] reports how many entries it removed and leaves a
    log that reads as empty, without a limit and with any limit that is
    an integer. *)
Theorem clear_then_read h :
  snd (clear_history h) = length h
  /\ get_history None (fst (clear_history h)) = Json (HistoryBody 0 [])
  /\ (forall s n, int_of_str s = Ok n ->
       get_history (Some s) (fst (clear_history h)) = Json (HistoryBody 0 [])).
Proof.
  split; [reflexivity |]. split; [reflexivity |].
  intros s n Hs. cbn [clear_history fst].
  unfold get_history, get_history_view. rewrite Hs. monad.
  unfold slice_from. rewrite drop_nil. reflexivity.
Qed.

(** Logging an entry and asking for [limit=1] gives back exactly that
    entry, whatever the log held. *)
Theorem log_then_read_last ts ep (data : I) (res : O) h :
  let h' := log_query ts ep data res h in
  get_history (Some "1"%string) h'
  = Json (HistoryBody (length h') [Entry ts ep data res]).
Proof.
  intros h'. unfold get_history, get_history_view.
  change (int_of_str "1") with (Ok 1 : result Z). monad.
  rewrite (slice_from_negative 1) by lia. f_equal. f_equal.
  change (Z.to_nat 1) with 1%nat.
  assert (Hshape : exists kept, h' = kept ++ [Entry ts ep data res]).
  { unfold h', log_query. rewrite length_app. simpl length.
    destruct (Nat.ltb_spec capacity (length h + 1)) as [Hgt | _].
    - exists (drop 1 h). apply drop_app_le. unfold capacity in Hgt. lia.
    - exists h. reflexivity. }
  destruct Hshape as [kept ->].
  rewrite AuditLogFacts.last_n_snoc. unfold last_n.
  rewrite Nat.sub_0_r, drop_all. reflexivity.
Qed.

End Facts.

Lemma history_positive_limit_witness :
  get_history (Some "2"%string) (map numbered [1; 2; 3]%nat)
  = Json (HistoryBody 3 (map numbered [2; 3]%nat)).
Proof.
  destruct (history_positive_limit "2"%string 2 (map numbered [1; 2; 3]%nat))
    as [H _]; [reflexivity | lia |]. exact H.
Defined.

Lemma history_negative_limit_witness :
  get_history (Some "-2"%string) (map numbered [1; 2; 3]%nat)
  = Json (HistoryBody 3 (map numbered [3]%nat)).
Proof.
  apply (history_negative_limit "-2"%string (-2)); [reflexivity | lia].
Defined.

Lemma clear_then_read_witness :
  get_history (Some "5"%string) (fst (clear_history (map numbered [1; 2; 3]%nat)))
  = Json (HistoryBody 0 []).
Proof.
  destruct (clear_then_read (map numbered [1; 2; 3]%nat)) as (_ & _ & H).
  apply (H "5"%string 5). reflexivity.
Defined.

Lemma history_is_suffix_witness :
  total_queries (HistoryBody 3 (map numbered [2; 3]%nat)) = 3%nat
  /\ (exists older,
        map numbered [1; 2; 3]%nat
        = older ++ history (HistoryBody 3 (map numbered [2; 3]%nat)))
  /\ (length (history (HistoryBody 3 (map numbered [2; 3]%nat))) <= 3)%nat.
Proof.
  apply (history_is_suffix (Some "2"%string) (map numbered [1; 2; 3]%nat)).
  reflexivity.
Defined.

End HistoryMore.

(** ** Further properties of the decorated endpoints *)

Module ReplyFacts.
Import Algebra Geometry Quiz Arithmetic.

Lemma handle_errors_structured {B} (r : result (reply B)) :
  answers_well r -> structured (handle_errors r).
Proof.
  intros Hr. destruct r as [x | e].
  - apply Hr. reflexivity.
  - destruct e; simpl; auto.
Qed.

Lemma answers_well_bind {A B} (r : result A) (k : A -> result (reply B)) :
  (forall a, answers_well (k a)) -> answers_well (r ≫= k).
Proof.
  intros Hk. destruct r as [a | e]; [apply Hk |].
  intros x Hx. discriminate Hx.
Qed.

Lemma answers_well_ok {B} (x : reply B) : structured x -> answers_well (Ok x).
Proof. intros Hx y Hy. injection Hy as <-. exact Hx. Qed.

(** Peel the binds and the tests of a view function. *)
Ltac answers :=
  repeat first
    [ apply answers_well_bind; intros
    | apply answers_well_ok; simpl; auto
    | match goal with
      | |- answers_well (if ?c then _ else _) => destruct c
      | |- answers_well (match ?x with _ => _ end) => destruct x
      end ].

(** Every decorated endpoint whose function returns on all its paths
    answers with a JSON body or with a JSON error of status 400 or 500,
    whatever the request: no exception leaves it and it never returns
    nothing. *)
Theorem decorated_endpoints_structured libm_pow :
  (forall data, structured (arithmetic data))
  /\ (forall data, structured (solve_linear data))
  /\ (forall data, structured (solve_quadratic libm_pow data))
  /\ (forall data, structured (circle libm_pow data))
  /\ (forall data, structured (rectangle libm_pow data))
  /\ (forall data, structured (triangle data))
  /\ (forall data, structured (cube libm_pow data))
  /\ (forall data, structured (sphere libm_pow data))
  /\ (forall data, structured (validate_quiz data)).
Proof.
  repeat split; intros data; apply handle_errors_structured.
  - unfold arithmetic_view. answers.
  - unfold solve_linear_view. answers.
  - unfold solve_quadratic_view. answers.
  - unfold circle_view. answers.
  - unfold rectangle_view. answers.
  - unfold triangle_view. answers.
  - unfold cube_view. answers.
  - unfold sphere_view. answers.
  - unfold validate_quiz_view. answers.
Qed.

End ReplyFacts.

(** ** Further properties of the solvers *)

Module AlgebraMore.
Import Algebra.

(** A request that leaves out [a], or whose [a] compares equal to zero
    (0, 0.0 or -0.0), is rejected by both solvers with the 400 reply
    for the coefficient, provided the other coefficients convert. *)
Theorem solvers_reject_zero_coefficient libm_pow (a b c : option num) :
  (a = None \/ exists fa, get_float a 0 = Ok fa /\ feq fa zero = true) ->
  (exists fb, get_float b 0 = Ok fb) ->
  (exists fc, get_float c 0 = Ok fc) ->
  solve_linear (LinearRequest a b)
  = JsonError 400 "Coefficient 'a' cannot be zero" None
  /\ solve_quadratic libm_pow (QuadraticRequest a b c)
     = JsonError 400 "Coefficient 'a' cannot be zero" None.
Proof.
  intros Ha [fb Hb] [fc Hc].
  assert (Hz : exists fa, get_float a 0 = Ok fa /\ feq fa zero = true).
  { destruct Ha as [-> | Ha]; [exists zero; split; reflexivity | exact Ha]. }
  destruct Hz as (fa & Hfa & Hzero).
  unfold solve_linear, solve_linear_view, solve_quadratic,
    solve_quadratic_view.
  cbn [lin_a lin_b quad_a quad_b quad_c].
  rewrite Hfa, Hb, Hc. monad. rewrite Hzero. split; reflexivity.
Qed.

Lemma solvers_reject_missing_coefficient :
  solve_linear (LinearRequest None (Some (NInt 5)))
  = JsonError 400 "Coefficient 'a' cannot be zero" None
  /\ solve_quadratic pow_rounded
       (QuadraticRequest None (Some (NInt 5)) (Some (NInt 1)))
     = JsonError 400 "Coefficient 'a' cannot be zero" None.
Proof.
  apply (solvers_reject_zero_coefficient pow_rounded None
           (Some (NInt 5)) (Some (NInt 1))).
  - left. reflexivity.
  - exists (nearest_Z 5). reflexivity.
  - exists (nearest_Z 1). reflexivity.
Defined.

(** When [b**2] is too large for a float, the quadratic solver does not
    reject the request as invalid input: [OverflowError] reaches the
    last clause of [handle_errors] and the reply is a 500. *)
Theorem quadratic_overflow_is_500 libm_pow data a b c :
  get_float (quad_a data) 0 = Ok a ->
  get_float (quad_b data) 0 = Ok b ->
  get_float (quad_c data) 0 = Ok c ->
  feq a zero = false ->
  is_finite b = true ->
  feq b zero = false ->
  feq (fabs b) one = false ->
  is_inf (libm_pow (fabs b) 2%positive) = true ->
  solve_quadratic libm_pow data
  = JsonError 500 "Internal server error" (Some OverflowError).
Proof.
  intros Ha Hb Hc Hnz Hfin Hbz Hone Hinf.
  unfold solve_quadratic, solve_quadratic_view.
  rewrite Ha, Hb, Hc. monad. rewrite Hnz.
  unfold discriminant, fpow.
  destruct b as [s | s | | s m e]; try discriminate Hfin; try discriminate Hbz.
  rewrite Hone, Hinf. reflexivity.
Qed.

(** x² + 1e200·x + 1 = 0 *)
Lemma quadratic_overflow_example :
  solve_quadratic pow_rounded
    (QuadraticRequest (Some (NInt 1)) (Some (NInt (10 ^ 200))) (Some (NInt 1)))
  = JsonError 500 "Internal server error" (Some OverflowError).
Proof.
  apply (quadratic_overflow_is_500 pow_rounded _ one (nearest_Z (10 ^ 200)) one);
    reflexivity.
Defined.

End AlgebraMore.

(** ** Further properties of the shapes *)

Module GeometryMore.
Import Geometry GeometryFacts.

(** Each shape compares the dimensions it checks with zero before it
    computes anything: a circle or sphere whose radius, a cube whose
    side, a rectangle whose length or width, a triangle whose base or
    height is zero or negative is answered with the 400 reply of that
    shape, whatever the other fields of the request are, as long as the
    fields the handler reads convert to floats (the triangle reads
    [side_a] and [side_b] before it checks the base and the height). *)
Theorem shapes_reject_non_positive libm_pow :
  (forall data radius,
     get_float (c_radius data) 0 = Ok radius ->
     fle radius zero = true ->
     circle libm_pow data = JsonError 400 "Radius must be positive" None)
  /\ (forall data radius,
       get_float (s_radius data) 0 = Ok radius ->
       fle radius zero = true ->
       sphere libm_pow data = JsonError 400 "Radius must be positive" None)
  /\ (forall data side,
       get_float (c_side data) 0 = Ok side ->
       fle side zero = true ->
       cube libm_pow data = JsonError 400 "Side length must be positive" None)
  /\ (forall data length width,
       get_float (r_length data) 0 = Ok length ->
       get_float (r_width data) 0 = Ok width ->
       fle length zero = true \/ fle width zero = true ->
       rectangle libm_pow data
       = JsonError 400 "Dimensions must be positive" None)
  /\ (forall data base height side_a side_b,
       get_float (t_base data) 0 = Ok base ->
       get_float (t_height data) 0 = Ok height ->
       get_side (t_side_a data) base = Ok side_a ->
       get_side (t_side_b data) base = Ok side_b ->
       fle base zero = true \/ fle height zero = true ->
       triangle data = JsonError 400 "Base and height must be positive" None).
Proof.
  split; [exact (circle_rejects libm_pow) |].
  split; [exact (sphere_rejects libm_pow) |].
  split; [exact (cube_rejects libm_pow) |].
  split; [exact (rectangle_rejects libm_pow) |].
  exact triangle_rejects_base_height.
Qed.

(** A triangle with base -1, height 4 and both sides given. *)
Lemma shapes_reject_zero :
  triangle (TriangleRequest (Some (NInt (-1))) (Some (NInt 4))
              (Some (NInt 5)) (Some (NFloat lit_0_5)))
  = JsonError 400 "Base and height must be positive" None.
Proof.
  destruct (shapes_reject_non_positive pow_rounded) as (_ & _ & _ & _ & H).
  apply (H _ (nearest_Z (-1)) (nearest_Z 4) (nearest_Z 5) lit_0_5);
    try reflexivity.
  left. reflexivity.
Defined.

(** A triangle request that leaves out [side_a] and [side_b] takes both
    to be the base: with a positive base and height the reply is a
    success body whose perimeter is [round(base + base + base, 6)]. *)
Theorem triangle_sides_default_to_base data base height :
  t_side_a data = None ->
  t_side_b data = None ->
  get_float (t_base data) 0 = Ok base ->
  get_float (t_height data) 0 = Ok height ->
  fle base zero = false ->
  fle height zero = false ->
  triangle data =
    Json (TriangleBody base height
            (round6 (fmul (fmul lit_0_5 base) height))
            (round6 (fadd (fadd base base) base))).
Proof.
  intros Ha Hb Hbase Hheight Hbp Hhp.
  apply triangle_ignores_sides; try assumption.
  - rewrite Ha. reflexivity.
  - rewrite Hb. reflexivity.
Qed.

(** Base 3, height 4: area 6.0 and perimeter 9.0. *)
Lemma triangle_sides_default_example :
  triangle (TriangleRequest (Some (NInt 3)) (Some (NInt 4)) None None)
  = Json (TriangleBody (nearest_Z 3) (nearest_Z 4) (nearest_Z 6) (nearest_Z 9)).
Proof.
  rewrite (triangle_sides_default_to_base _ (nearest_Z 3) (nearest_Z 4));
    reflexivity.
Defined.

End GeometryMore.

(** ** Statistics: minimum and maximum *)

Module SummaryFacts.
Import Statistics Summary ReplyFacts.

Lemma flt_irrefl x : flt x x = false.
Proof.
  destruct x as [s | [] | | [] m e]; try reflexivity;
    unfold flt, SFltb, SFcompare;
    rewrite Z.compare_refl;
    change (Pos.compare_cont Eq m m) with (Pos.compare m m);
    rewrite Pos.compare_refl; reflexivity.
Qed.

Lemma flt_finite sx mx ex sy my ey :
  flt (S754_finite sx mx ex) (S754_finite sy my ey) = true <->
  match sx, sy with
  | true, false => True
  | false, true => False
  | false, false => ex < ey \/ (ex = ey /\ (mx < my)%positive)
  | true, true => ey < ex \/ (ex = ey /\ (my < mx)%positive)
  end.
Proof.
  unfold flt, SFltb, SFcompare.
  change (Pos.compare_cont Eq mx my) with (Pos.compare mx my).
  destruct sx, sy; try (split; [discriminate | tauto]);
    try (split; [reflexivity | intros []]); try tauto;
    destruct (Z.compare_spec ex ey) as [He | He | He];
    destruct (Pos.compare_spec mx my) as [Hm | Hm | Hm]; simpl;
    split; try discriminate; try reflexivity; intros; lia.
Qed.

Lemma flt_trans x y z : flt x y = true -> flt y z = true -> flt x z = true.
Proof.
  destruct x as [sx | sx | | sx mx ex], y as [sy | sy | | sy my ey],
    z as [sz | sz | | sz mz ez];
    try discriminate; try reflexivity;
    try (destruct sx, sy, sz; (discriminate || reflexivity)).
  rewrite !flt_finite. destruct sx, sy, sz; try tauto; lia.
Qed.

(** [fgt x y] is [flt y x]. *)
Lemma fgt_flt x y : fgt x y = flt y x.
Proof. reflexivity. Qed.

Section Extremum.
(** [better item cur] tells that [item] replaces the candidate [cur]. *)
Variable better : float -> float -> bool.
Hypothesis better_irrefl : forall x, better x x = false.
Hypothesis better_trans :
  forall x y z, better x y = true -> better y z = true -> better x z = true.

Lemma scan_extremal rest : forall cur seen,
  In cur seen ->
  (forall y, In y seen -> better y cur = false) ->
  let r := fold_left (fun cur item => if better item cur then item else cur)
             rest cur in
  In r (seen ++ rest)
  /\ (forall y, In y (seen ++ rest) -> better y r = false).
Proof.
  induction rest as [| item rest IH]; intros cur seen Hin Hbest; simpl.
  - rewrite app_nil_r. auto.
  - replace (seen ++ item :: rest) with ((seen ++ [item]) ++ rest)
      by (rewrite <- app_assoc; reflexivity).
    destruct (better item cur) eqn:E; apply IH.
    + apply in_or_app. right. left. reflexivity.
    + intros y Hy. apply in_app_or in Hy as [Hy | [<- | []]].
      * apply not_true_is_false. intros Hyi.
        pose proof (Hbest y Hy) as Hcur.
        rewrite (better_trans y item cur Hyi E) in Hcur. discriminate Hcur.
      * apply better_irrefl.
    + apply in_or_app. left. exact Hin.
    + intros y Hy. apply in_app_or in Hy as [Hy | [<- | []]].
      * apply Hbest, Hy.
      * exact E.
Qed.

End Extremum.

(** For a list that is not empty, [min] and [max] return elements of
    the list, no element is smaller than the minimum and none is larger
    than the maximum. *)
Lemma py_min_max_extremal (dataset : list float) :
  dataset <> [] ->
  exists mn mx,
    py_min dataset = Ok mn /\ py_max dataset = Ok mx
    /\ In mn dataset /\ In mx dataset
    /\ (forall y, In y dataset -> flt y mn = false /\ fgt y mx = false).
Proof.
  destruct dataset as [| x rest]; [congruence |]. intros _.
  destruct (scan_extremal flt flt_irrefl flt_trans rest x [x])
    as [Hmin_in Hmin]; [left; reflexivity | |].
  { intros y [<- | []]. apply flt_irrefl. }
  destruct (scan_extremal fgt) with (rest := rest) (cur := x) (seen := [x])
    as [Hmax_in Hmax].
  { intros y. apply flt_irrefl. }
  { intros a b c Hab Hbc. apply (flt_trans c b a); assumption. }
  { left. reflexivity. }
  { intros y [<- | []]. apply flt_irrefl. }
  simpl in *. eexists _, _.
  split; [reflexivity |]. split; [reflexivity |].
  split; [exact Hmin_in |]. split; [exact Hmax_in |].
  intros y Hy. split; [apply Hmin, Hy | apply Hmax, Hy].
Qed.

(** Whenever the statistics endpoint answers with a success body, its
    [min] and [max] fields are elements of the dataset as converted to
    floats, no converted element is smaller than [min] and none is
    larger than [max] (NaN elements included, as Python compares them),
    and [dataset_size] is the number of elements. *)
Theorem min_max_extremal libm_pow py_sum py_sorted data body :
  statistics libm_pow py_sum py_sorted data = Json body ->
  exists raw dataset,
    st_data data = Some raw
    /\ each to_float raw = Ok dataset
    /\ st_dataset_size body = length raw
    /\ In (st_min body) dataset
    /\ In (st_max body) dataset
    /\ (forall y, In y dataset ->
                  flt y (st_min body) = false /\ fgt y (st_max body) = false).
Proof.
  intros H.
  destruct (StatisticsFacts.statistics_json _ _ _ _ _ H)
    as (raw & dataset & Hraw & Hconv & Hne & Hsize & _ & Hmin & Hmax).
  destruct (py_min_max_extremal dataset Hne)
    as (mn & mx & Hmn & Hmx & Hin_mn & Hin_mx & Hext).
  assert (mn = st_min body) as -> by congruence.
  assert (mx = st_max body) as -> by congruence.
  exists raw, dataset.
  split; [exact Hraw |]. split; [exact Hconv |].
  split; [rewrite Hsize; apply (StatisticsFacts.each_length _ _ _ Hconv) |].
  auto.
Qed.

(** A request without [data], or whose [data] is the empty array, is
    answered with the 400 reply of the dataset, before anything is
    computed. *)
Theorem statistics_rejects_empty libm_pow py_sum py_sorted data :
  st_data data = None \/ st_data data = Some [] ->
  statistics libm_pow py_sum py_sorted data
  = JsonError 400 invalid_dataset None.
Proof.
  intros [H | H]; unfold statistics, statistics_view; rewrite H; reflexivity.
Qed.

Lemma statistics_rejects_empty_example :
  statistics pow_rounded sum_left sorted_stable (StatisticsRequest None)
  = JsonError 400 invalid_dataset None.
Proof.
  apply (statistics_rejects_empty pow_rounded sum_left sorted_stable
           (StatisticsRequest None)).
  left. reflexivity.
Defined.

(** The statistics endpoint answers every request of the model with a
    JSON body or with a JSON error of status 400 or 500, whatever
    [pow], [sum] and [sorted] compute: no exception leaves it and it
    never returns nothing. *)
Theorem statistics_structured libm_pow py_sum py_sorted data :
  structured (statistics libm_pow py_sum py_sorted data).
Proof.
  apply handle_errors_structured. unfold statistics_view. answers.
Qed.

(** The dataset 2, -1, 5: the minimum is -1 and the maximum 5. *)
Lemma min_max_example :
  let request := StatisticsRequest (Some (map NInt [2; -1; 5]%Z)) in
  let body :=
    StatisticsBody 3 two two NoMode six (nearest_ratio 244949 100000) six
      (nearest_Z (-1)) (nearest_Z 5) in
  statistics pow_rounded sum_left sorted_stable request = Json body
  /\ exists raw dataset,
       st_data request = Some raw
       /\ each to_float raw = Ok dataset
       /\ st_dataset_size body = length raw
       /\ In (st_min body) dataset
       /\ In (st_max body) dataset
       /\ (forall y, In y dataset ->
                     flt y (st_min body) = false
                     /\ fgt y (st_max body) = false).
Proof.
  intros request body.
  assert (H : statistics pow_rounded sum_left sorted_stable request = Json body)
    by (vm_compute; reflexivity).
  split; [exact H |].
  exact (min_max_extremal pow_rounded sum_left sorted_stable request body H).
Defined.

End SummaryFacts.

(** ** Arithmetic *)

Module ArithmeticFacts.
Import Arithmetic PyStr.
Local Open Scope string_scope.

Lemma is_zero_float v :
  is_zero v = true -> exists f, to_float v = Ok f /\ feq f zero = true.
Proof.
  destruct v as [z | f]; simpl.
  - intros Hz. apply Z.eqb_eq in Hz. subst z. exists zero. split; reflexivity.
  - intros Hf. exists f. auto.
Qed.

Lemma is_zero_fraction v :
  is_zero v = true -> exists d, fraction_of v = Ok (Fraction 0 d).
Proof.
  destruct v as [z | f]; simpl.
  - intros Hz. apply Z.eqb_eq in Hz. subst z. exists 1%positive. reflexivity.
  - destruct f as [s | s | | s m e]; try (destruct s; discriminate);
      try discriminate.
    intros _. exists 1%positive. reflexivity.
Qed.

(** Dividing by an operand that compares equal to zero ([0], [0.0] or
    [-0.0]) is answered with the 400 reply "Division by zero", in float
    mode and in exact mode alike, whenever the first operand converts:
    no infinity or NaN is produced and no exception is raised. *)
Theorem divide_by_zero_rejected data a b :
  ar_operation data = Some "divide" ->
  ar_a data = Some a ->
  ar_b data = Some b ->
  converts (default false (ar_fractions data)) a ->
  is_zero b = true ->
  arithmetic data = JsonError 400 "Division by zero" None.
Proof.
  intros Hop Ha Hb Hconv Hzero. unfold arithmetic, arithmetic_view.
  rewrite Hop, Ha, Hb. unfold converts in Hconv.
  destruct (default false (ar_fractions data)).
  - destruct Hconv as [[na da] Hqa].
    destruct (is_zero_fraction b Hzero) as [d Hqb].
    rewrite Hqa, Hqb. reflexivity.
  - destruct Hconv as [fa Hfa].
    destruct (is_zero_float b Hzero) as (fb & Hfb & Hfz).
    rewrite Hfa, Hfb. monad. cbn [lookup_operation operations String.eqb].
    change (lookup_operation "divide" operations) with (Some op_divide).
    cbv beta iota. unfold float_operation. rewrite Hfz. reflexivity.
Qed.

(** 1 / -0.0 in float mode. *)
Lemma divide_by_negative_zero :
  arithmetic (ArithmeticRequest (Some "divide") (Some (NInt 1))
                (Some (NFloat (S754_zero true))) None)
  = JsonError 400 "Division by zero" None.
Proof.
  apply (divide_by_zero_rejected _ (NInt 1) (NFloat (S754_zero true)));
    try reflexivity.
  exists one. reflexivity.
Defined.

(** An operation that is not one of the four keys is answered with the
    400 reply that lists them, provided both operands convert: the
    operands are converted before the operation is looked at. *)
Theorem unknown_operation_rejected data operation a b :
  ar_operation data = Some operation ->
  ar_a data = Some a ->
  ar_b data = Some b ->
  converts (default false (ar_fractions data)) a ->
  converts (default false (ar_fractions data)) b ->
  operation <> "add" -> operation <> "subtract" ->
  operation <> "multiply" -> operation <> "divide" ->
  arithmetic data = JsonError 400 invalid_operation None.
Proof.
  intros Hop Ha Hb Hca Hcb H1 H2 H3 H4. unfold arithmetic, arithmetic_view.
  rewrite Hop, Ha, Hb.
  assert (Hlook : lookup_operation operation operations = None).
  { unfold lookup_operation, operations.
    rewrite !(proj2 (String.eqb_neq _ _)) by congruence. reflexivity. }
  unfold converts in Hca, Hcb.
  destruct (default false (ar_fractions data));
    destruct Hca as [xa Hxa], Hcb as [xb Hxb];
    rewrite Hxa, Hxb; monad; rewrite Hlook; reflexivity.
Qed.

Lemma unknown_operation_example :
  arithmetic (ArithmeticRequest (Some "power") (Some (NInt 2))
                (Some (NInt 3)) None)
  = JsonError 400 invalid_operation None.
Proof.
  apply (unknown_operation_rejected _ "power" (NInt 2) (NInt 3));
    try reflexivity; try discriminate.
  - exists two. reflexivity.
  - exists three. reflexivity.
Defined.

(** In exact mode a NaN operand is answered 400 "Invalid input" and an
    infinite operand 500 "Internal server error", whatever the
    operation is; the first operand is converted first. *)
Theorem exact_mode_non_finite_operand data operation a b :
  ar_operation data = Some operation ->
  ar_a data = Some a ->
  ar_b data = Some b ->
  ar_fractions data = Some true ->
  (a = NFloat S754_nan ->
   arithmetic data = JsonError 400 "Invalid input" (Some ValueError))
  /\ ((exists s, a = NFloat (S754_infinity s)) ->
      arithmetic data
      = JsonError 500 "Internal server error" (Some OverflowError))
  /\ ((exists q, fraction_of a = Ok q) -> b = NFloat S754_nan ->
      arithmetic data = JsonError 400 "Invalid input" (Some ValueError))
  /\ ((exists q, fraction_of a = Ok q) ->
      (exists s, b = NFloat (S754_infinity s)) ->
      arithmetic data
      = JsonError 500 "Internal server error" (Some OverflowError)).
Proof.
  intros Hop Ha Hb Hmode. unfold arithmetic, arithmetic_view.
  rewrite Hop, Ha, Hb, Hmode. cbn [default from_option id].
  repeat split.
  - intros ->. reflexivity.
  - intros [s ->]. reflexivity.
  - intros [q ->] ->. reflexivity.
  - intros [q ->] [s ->]. reflexivity.
Qed.

Lemma exact_mode_nan_example :
  arithmetic (ArithmeticRequest (Some "add") (Some (NFloat S754_nan))
                (Some (NInt 1)) (Some true))
  = JsonError 400 "Invalid input" (Some ValueError).
Proof.
  destruct (exact_mode_non_finite_operand
              (ArithmeticRequest (Some "add") (Some (NFloat S754_nan))
                 (Some (NInt 1)) (Some true))
              "add" (NFloat S754_nan) (NInt 1)) as [H _];
    [reflexivity | reflexivity | reflexivity | reflexivity |].
  apply H. reflexivity.
Defined.

Lemma make_fraction_integer n : make_fraction n 1 = Fraction n 1.
Proof.
  unfold make_fraction. rewrite Z.gcd_1_r, Z.div_1_r. reflexivity.
Qed.

Lemma str_int_short z :
  (digit_count z <= max_str_digits)%nat -> str_int z = Ok (str_of_int z).
Proof.
  intros Hz. unfold str_int.
  destruct (Nat.ltb_spec max_str_digits (digit_count z)) as [Hlt | _];
    [lia | reflexivity].
Qed.

Lemma str_int_long z :
  (max_str_digits < digit_count z)%nat -> str_int z = Raise ValueError.
Proof.
  intros Hz. unfold str_int.
  destruct (Nat.ltb_spec max_str_digits (digit_count z)) as [_ | Hle];
    [reflexivity | lia].
Qed.

Lemma exact_integers_view operation o (x y z : Z) :
  lookup_operation operation operations = Some o ->
  fraction_operation o (Fraction x 1) (Fraction y 1) = Some (Fraction z 1) ->
  (digit_count x <= max_str_digits)%nat ->
  (digit_count y <= max_str_digits)%nat ->
  arithmetic (ArithmeticRequest (Some operation) (Some (NInt x))
                (Some (NInt y)) (Some true))
  = if (max_str_digits <? digit_count z)%nat
    then JsonError 400 "Invalid input" (Some ValueError)
    else Json (ArithmeticBody operation (ShownStr (str_of_int x))
                 (ShownStr (str_of_int y)) (ShownStr (str_of_int z))).
Proof.
  intros Hlook Hop Hx Hy. unfold arithmetic, arithmetic_view.
  cbn [ar_operation ar_a ar_b ar_fractions default from_option id fraction_of].
  monad. rewrite Hlook, Hop.
  change (fraction_str (Fraction x 1)) with (str_int x).
  change (fraction_str (Fraction y 1)) with (str_int y).
  change (fraction_str (Fraction z 1)) with (str_int z).
  rewrite (str_int_short x Hx), (str_int_short y Hy).
  destruct (Nat.ltb_spec max_str_digits (digit_count z)) as [Hlt | Hle].
  - rewrite (str_int_long z Hlt). reflexivity.
  - rewrite (str_int_short z Hle). reflexivity.
Qed.

(** In exact mode, adding, subtracting and multiplying two integers
    gives the exact integer, printed in full together with the two
    operands, as long as the result has at most 4300 digits; a result
    of more digits cannot be printed, and the reply is the 400
    "Invalid input".  The operands are integers of at most 4300 digits,
    as the integers of a JSON body are. *)
Theorem exact_mode_integers (x y : Z) :
  (digit_count x <= max_str_digits)%nat ->
  (digit_count y <= max_str_digits)%nat ->
  let request operation :=
    ArithmeticRequest (Some operation) (Some (NInt x)) (Some (NInt y))
      (Some true) in
  let answer operation z :=
    if (max_str_digits <? digit_count z)%nat
    then JsonError 400 "Invalid input" (Some ValueError)
    else Json (ArithmeticBody operation (ShownStr (str_of_int x))
                 (ShownStr (str_of_int y)) (ShownStr (str_of_int z))) in
  arithmetic (request "add") = answer "add" (x + y)
  /\ arithmetic (request "subtract") = answer "subtract" (x - y)
  /\ arithmetic (request "multiply") = answer "multiply" (x * y).
Proof.
  intros Hx Hy request answer. unfold request, answer.
  repeat split.
  - apply (exact_integers_view _ op_add); try assumption; try reflexivity.
    cbn [fraction_operation]. rewrite !Z.mul_1_r.
    change (1 * 1)%positive with 1%positive.
    rewrite make_fraction_integer. reflexivity.
  - apply (exact_integers_view _ op_subtract); try assumption; try reflexivity.
    cbn [fraction_operation]. rewrite !Z.mul_1_r.
    change (1 * 1)%positive with 1%positive.
    rewrite make_fraction_integer. reflexivity.
  - apply (exact_integers_view _ op_multiply); try assumption; try reflexivity.
    cbn [fraction_operation].
    change (1 * 1)%positive with 1%positive.
    rewrite make_fraction_integer. reflexivity.
Qed.

(** 12 + 30, 12 - 30 and 12 * 30. *)
Lemma exact_mode_integers_example :
  arithmetic (ArithmeticRequest (Some "add") (Some (NInt 12)) (Some (NInt 30))
                (Some true))
  = Json (ArithmeticBody "add" (ShownStr "12") (ShownStr "30") (ShownStr "42")).
Proof.
  destruct (exact_mode_integers 12 30) as [H _];
    [apply Nat.leb_le; reflexivity | apply Nat.leb_le; reflexivity |].
  exact H.
Defined.

End ArithmeticFacts.

(** ** Printing and reading integers *)

Module PyStrFacts.
Import PyStr Quiz QuizFacts.
Local Open Scope string_scope.

Lemma digit_cases d :
  0 <= d < 10 ->
  d = 0 \/ d = 1 \/ d = 2 \/ d = 3 \/ d = 4 \/ d = 5 \/ d = 6 \/ d = 7
  \/ d = 8 \/ d = 9.
Proof. lia. Qed.

Lemma digit_char_spec d :
  0 <= d < 10 ->
  is_digit (digit_char d) = true
  /\ digit_val (digit_char d) = d
  /\ Ascii.eqb (digit_char d) "_" = false.
Proof.
  intros Hd.
  destruct (digit_cases d Hd) as [-> | [-> | [-> | [-> | [-> | [-> | [-> | [-> | [-> | ->]]]]]]]]];
    repeat split; reflexivity.
Qed.

Lemma is_digit_not_space c : is_digit c = true -> is_space c = false.
Proof.
  destruct c as [[] [] [] [] [] [] [] []]; try discriminate; reflexivity.
Qed.

Lemma is_digit_not_sign c :
  is_digit c = true -> Ascii.eqb c "-" = false /\ Ascii.eqb c "+" = false.
Proof.
  destruct c as [[] [] [] [] [] [] [] []]; try discriminate; split; reflexivity.
Qed.

Lemma pow10_succ (k : nat) : 10 ^ Z.of_nat (S k) = 10 * 10 ^ Z.of_nat k.
Proof. rewrite Nat2Z.inj_succ, Z.pow_succ_r by lia. reflexivity. Qed.

Lemma pow2_succ (k : nat) : 2 ^ Z.of_nat (S k) = 2 * 2 ^ Z.of_nat k.
Proof. rewrite Nat2Z.inj_succ, Z.pow_succ_r by lia. reflexivity. Qed.

(** Reading the digits that [digits_of] wrote: the scanner is left
    with the number appended to what it had, and has counted the
    digits. *)
Lemma scan_digits_of fuel : forall n rest a cnt after_digit,
  0 <= n < 2 ^ Z.of_nat (S fuel) ->
  exists k : nat,
    (1 <= k)%nat
    /\ n < 10 ^ Z.of_nat k
    /\ (k = 1%nat \/ 10 ^ Z.of_nat (k - 1) <= n)
    /\ scan_digits (digits_of (S fuel) n rest) a cnt after_digit
       = scan_digits rest (a * 10 ^ Z.of_nat k + n) (cnt + k) true.
Proof.
  induction fuel as [| fuel IH]; intros n rest a cnt after_digit Hn.
  - exists 1%nat. change (2 ^ Z.of_nat 1) with 2 in Hn.
    assert (Hd : 0 <= n mod 10 < 10) by (apply Z.mod_pos_bound; lia).
    destruct (digit_char_spec _ Hd) as (Hdig & Hval & _).
    cbn [digits_of]. destruct (Z.ltb_spec n 10) as [_ | Hge]; [| lia].
    cbn [scan_digits]. rewrite Hdig, Hval.
    rewrite Z.mod_small by lia.
    repeat split; try lia.
    f_equal; [change (10 ^ Z.of_nat 1) with 10; lia | lia].
  - assert (Hd : 0 <= n mod 10 < 10) by (apply Z.mod_pos_bound; lia).
    destruct (digit_char_spec _ Hd) as (Hdig & Hval & _).
    change (digits_of (S (S fuel)) n rest) with
      (if (n <? 10)%Z then String (digit_char (n mod 10)) rest
       else digits_of (S fuel) (n / 10) (String (digit_char (n mod 10)) rest)).
    destruct (Z.ltb_spec n 10) as [Hlt | Hge].
    + exists 1%nat. cbn [scan_digits]. rewrite Hdig, Hval.
      rewrite Z.mod_small by lia.
      repeat split; try lia.
      f_equal; [change (10 ^ Z.of_nat 1) with 10; lia | lia].
    + rewrite pow2_succ in Hn.
      assert (Hq : 0 <= n / 10 < 2 ^ Z.of_nat (S fuel)).
      { split; [apply Z.div_pos; lia |].
        apply Z.div_lt_upper_bound; lia. }
      destruct (IH (n / 10) (String (digit_char (n mod 10)) rest) a cnt
                  after_digit Hq) as (k & Hk1 & Hlt & Hlow & Hscan).
      exists (S k). rewrite Hscan. cbn [scan_digits]. rewrite Hdig, Hval.
      pose proof (Z.div_mod n 10 ltac:(lia)) as Hdm.
      rewrite pow10_succ.
      split; [lia |]. split; [lia |]. split.
      * right. replace (S k - 1)%nat with k by lia.
        destruct Hlow as [-> | Hlow].
        -- change (10 ^ Z.of_nat 1) with 10. lia.
        -- destruct k as [| k']; [lia |].
           replace (S k' - 1)%nat with k' in Hlow by lia.
           rewrite pow10_succ. lia.
      * f_equal; lia.
Qed.

Lemma digits_of_head fuel n rest :
  0 <= n ->
  exists c s, digits_of (S fuel) n rest = String c s /\ is_digit c = true.
Proof.
  revert n rest. induction fuel as [| fuel IH]; intros n rest Hn.
  - assert (Hd : 0 <= n mod 10 < 10) by (apply Z.mod_pos_bound; lia).
    destruct (digit_char_spec _ Hd) as (Hdig & _).
    cbn [digits_of]. destruct (n <? 10)%Z; eauto.
  - assert (Hd : 0 <= n mod 10 < 10) by (apply Z.mod_pos_bound; lia).
    destruct (digit_char_spec _ Hd) as (Hdig & _).
    change (digits_of (S (S fuel)) n rest) with
      (if (n <? 10)%Z then String (digit_char (n mod 10)) rest
       else digits_of (S fuel) (n / 10) (String (digit_char (n mod 10)) rest)).
    destruct (n <? 10)%Z; [eauto |].
    apply IH. apply Z.div_pos; lia.
Qed.

Lemma digits_of_no_underscore fuel : forall n rest,
  0 <= n -> no_underscore rest = true ->
  no_underscore (digits_of fuel n rest) = true.
Proof.
  induction fuel as [| fuel IH]; intros n rest Hn Hrest; [exact Hrest |].
  assert (Hd : 0 <= n mod 10 < 10) by (apply Z.mod_pos_bound; lia).
  destruct (digit_char_spec _ Hd) as (_ & _ & Hund).
  cbn [digits_of].
  assert (Hacc : no_underscore (String (digit_char (n mod 10)) rest) = true).
  { cbn [no_underscore]. rewrite Hund, Hrest. reflexivity. }
  destruct (n <? 10)%Z; [exact Hacc |].
  apply IH; [apply Z.div_pos; lia | exact Hacc].
Qed.

Lemma log2_fuel n : 0 <= n -> n < 2 ^ Z.of_nat (S (Z.to_nat (Z.log2 n))).
Proof.
  intros Hn. rewrite Nat2Z.inj_succ, Z2Nat.id by apply Z.log2_nonneg.
  destruct (Z.eq_dec n 0) as [-> | Hnz]; [reflexivity |].
  apply Z.log2_spec. lia.
Qed.

Lemma read_nonneg n :
  0 <= n < int_limit ->
  forall neg, finish neg (scan_digits (str_of_nonneg n) 0 0 false)
              = Ok (if neg then - n else n).
Proof.
  intros [Hn Hbig] neg. unfold str_of_nonneg.
  destruct (scan_digits_of (Z.to_nat (Z.log2 n)) n "" 0 0%nat false)
    as (k & Hk1 & _ & Hlow & Hscan); [split; [lia | apply log2_fuel, Hn] |].
  rewrite Hscan. cbn [scan_digits finish]. rewrite Z.mul_0_l, Z.add_0_l.
  assert (Hk : (k <= 4300)%nat).
  { destruct Hlow as [-> | Hlow]; [lia |].
    assert (H : 10 ^ Z.of_nat (k - 1) < 10 ^ 4300)
      by (eapply Z.le_lt_trans; [exact Hlow | exact Hbig]).
    apply Z.pow_lt_mono_r_iff in H; lia. }
  unfold max_str_digits.
  destruct (Nat.ltb_spec 4300 (0 + k)) as [Hgt | _]; [lia | reflexivity].
Qed.

Lemma int_of_str_digit_head c s :
  is_digit c = true ->
  int_of_str (String c s) = finish false (scan_digits (String c s) 0 0 false).
Proof.
  intros Hc. unfold int_of_str. cbn [lstrip].
  rewrite (is_digit_not_space c Hc).
  destruct c as [[] [] [] [] [] [] [] []]; try discriminate Hc; reflexivity.
Qed.

Lemma below_int_limit z : Z.abs z < 10 ^ 20 -> Z.abs z < int_limit.
Proof.
  intros Hz. eapply Z.lt_le_trans; [exact Hz |].
  unfold int_limit. apply Z.pow_le_mono_r; lia.
Qed.

(** [int(str(z)) == z] for every integer of at most 4300 digits, and
    [str(z)] has no underscore. *)
Lemma int_of_str_of_int z :
  Z.abs z < int_limit ->
  int_of_str (str_of_int z) = Ok z /\ no_underscore (str_of_int z) = true.
Proof.
  intros Hz. unfold str_of_int.
  destruct (Z.ltb_spec z 0) as [Hneg | Hpos].
  - split.
    + change (int_of_str (String "-" (str_of_nonneg (- z))))
        with (finish true (scan_digits (str_of_nonneg (- z)) 0 0 false)).
      rewrite read_nonneg by lia. f_equal. lia.
    + cbn [no_underscore]. change (Ascii.eqb "-" "_") with false.
      apply digits_of_no_underscore; [lia | reflexivity].
  - split.
    + destruct (digits_of_head (Z.to_nat (Z.log2 z)) z "" Hpos)
        as (c & s & Hs & Hc).
      unfold str_of_nonneg at 1. rewrite Hs, (int_of_str_digit_head c s Hc).
      rewrite <- Hs. fold (str_of_nonneg z). apply (read_nonneg z); lia.
    + apply digits_of_no_underscore; [lia | reflexivity].
Qed.

(** The number of characters [digits_of] writes. *)
Lemma digits_of_length fuel : forall n rest,
  0 <= n < 2 ^ Z.of_nat (S fuel) ->
  exists k : nat,
    (1 <= k)%nat
    /\ n < 10 ^ Z.of_nat k
    /\ (k = 1%nat \/ 10 ^ Z.of_nat (k - 1) <= n)
    /\ String.length (digits_of (S fuel) n rest) = (k + String.length rest)%nat.
Proof.
  induction fuel as [| fuel IH]; intros n rest Hn.
  - exists 1%nat. change (2 ^ Z.of_nat 1) with 2 in Hn.
    cbn [digits_of]. destruct (Z.ltb_spec n 10) as [_ | Hge]; [| lia].
    change (10 ^ Z.of_nat 1) with 10. repeat split; first [lia | reflexivity].
  - change (digits_of (S (S fuel)) n rest) with
      (if (n <? 10)%Z then String (digit_char (n mod 10)) rest
       else digits_of (S fuel) (n / 10) (String (digit_char (n mod 10)) rest)).
    destruct (Z.ltb_spec n 10) as [Hlt | Hge].
    + exists 1%nat. change (10 ^ Z.of_nat 1) with 10.
      repeat split; first [lia | reflexivity].
    + rewrite pow2_succ in Hn.
      assert (Hq : 0 <= n / 10 < 2 ^ Z.of_nat (S fuel)).
      { split; [apply Z.div_pos; lia |].
        apply Z.div_lt_upper_bound; lia. }
      destruct (IH (n / 10) (String (digit_char (n mod 10)) rest) Hq)
        as (k & Hk1 & Hlt & Hlow & Hlen).
      exists (S k). rewrite Hlen. cbn [String.length].
      pose proof (Z.div_mod n 10 ltac:(lia)) as Hdm.
      pose proof (Z.mod_pos_bound n 10 ltac:(lia)) as Hmod.
      rewrite pow10_succ.
      split; [lia |]. split; [lia |]. split; [| lia].
      right. replace (S k - 1)%nat with k by lia.
      destruct Hlow as [-> | Hlow].
      * change (10 ^ Z.of_nat 1) with 10. lia.
      * destruct k as [| k']; [lia |].
        replace (S k' - 1)%nat with k' in Hlow by lia.
        rewrite pow10_succ. lia.
Qed.

(** An integer has at most 4300 digits exactly when its magnitude is
    below [10^4300]. *)
Lemma digit_count_limit z :
  (digit_count z <= max_str_digits)%nat <-> Z.abs z < int_limit.
Proof.
  unfold digit_count, str_of_nonneg.
  destruct (digits_of_length (Z.to_nat (Z.log2 (Z.abs z))) (Z.abs z) "")
    as (k & Hk1 & Hlt & Hlow & Hlen);
    [split; [lia | apply log2_fuel; lia] |].
  rewrite Hlen. cbn [String.length]. rewrite Nat.add_0_r.
  unfold max_str_digits. split.
  - intros Hk. eapply Z.lt_le_trans; [exact Hlt |].
    unfold int_limit. apply Z.pow_le_mono_r; lia.
  - intros Hz. destruct Hlow as [-> | Hlow]; [lia |].
    assert (H : 10 ^ Z.of_nat (k - 1) < 10 ^ 4300)
      by (eapply Z.le_lt_trans; [exact Hlow | exact Hz]).
    clear Hz Hlt Hlow. apply Z.pow_lt_mono_r_iff in H; lia.
Qed.

(** [str(z)] returns the decimal form of [z] when [z] has at most 4300
    digits, and raises [ValueError] otherwise. *)
Lemma str_int_spec z :
  (Z.abs z < int_limit -> str_int z = Ok (str_of_int z))
  /\ (int_limit <= Z.abs z -> str_int z = Raise ValueError).
Proof.
  unfold str_int.
  destruct (Nat.ltb_spec max_str_digits (digit_count z)) as [Hlong | Hshort].
  - split; [| reflexivity]. intros Hz. apply digit_count_limit in Hz. lia.
  - split; [reflexivity |]. intros Hz.
    apply digit_count_limit in Hshort. lia.
Qed.

End PyStrFacts.

(** ** Further properties of the quiz *)

Module QuizMore.
Import Quiz PyStr QuizFacts PyStrFacts.
Local Open Scope string_scope.

Lemma choice_quiz_types d :
  choice quiz_types d = "arithmetic" \/ choice quiz_types d = "algebra"
  \/ choice quiz_types d = "geometry".
Proof.
  unfold choice, quiz_types. simpl length.
  pose proof (Nat.mod_upper_bound d 3 ltac:(lia)) as Hlt.
  destruct (d mod 3)%nat as [| [| [| n]]]; simpl; auto. lia.
Qed.

(** Without the [type] parameter [generate_quiz] always hands out a
    question, of one of its three kinds; with the parameter it hands
    out a question exactly when the parameter is one of [arithmetic],
    [algebra], [geometry], and returns nothing otherwise. *)
Theorem generate_quiz_answers rnd :
  (exists q, generate_quiz None rnd = Json q
             /\ In (q_type q) ["arithmetic"; "linear_equation"; "geometry"])
  /\ (forall t, In t quiz_types -> exists q, generate_quiz (Some t) rnd = Json q)
  /\ (forall t, ~ In t quiz_types -> generate_quiz (Some t) rnd = ReturnedNone).
Proof.
  split; [| split].
  - unfold generate_quiz, generate_quiz_view. cbn [default from_option id].
    destruct (choice_quiz_types (draw0 rnd)) as [-> | [-> | ->]];
      eexists; (split; [reflexivity |]); simpl; auto.
  - intros t [<- | [<- | [<- | []]]]; eexists; reflexivity.
  - intros t Hnot. unfold generate_quiz, generate_quiz_view.
    cbn [default from_option id].
    destruct (String.eqb_spec t "arithmetic") as [-> | _];
      [exfalso; apply Hnot; simpl; auto |].
    destruct (String.eqb_spec t "algebra") as [-> | _];
      [exfalso; apply Hnot; simpl; auto |].
    destruct (String.eqb_spec t "geometry") as [-> | _];
      [exfalso; apply Hnot; simpl; auto |].
    reflexivity.
Qed.

Lemma generate_quiz_answers_witness :
  generate_quiz (Some "algebra") (Draws 0 2 25 0)
  = Json (Question "linear_equation" "algebra_3_5" "medium" None)
  /\ generate_quiz (Some "trigonometry") (Draws 0 2 25 0) = ReturnedNone.
Proof.
  destruct (generate_quiz_answers (Draws 0 2 25 0)) as (_ & _ & Hnone).
  split; [reflexivity |]. apply Hnone.
  intros [H | [H | [H | []]]]; discriminate H.
Defined.

(** The token format is decoded for every integer, not only for those
    of the quiz ranges: for integers of at most 4300 digits, negative
    ones included, the validator reads back from the tokens that
    [generate_quiz] would write the same numbers and operation. *)
Theorem token_decodes (a b : Z) :
  Z.abs a < int_limit -> Z.abs b < int_limit ->
  recompute ("arithmetic_" ++ str_of_int a ++ "_" ++ str_of_int b ++ "_add")
  = Ok (Some (NInt (a + b)))
  /\ recompute ("arithmetic_" ++ str_of_int a ++ "_" ++ str_of_int b
                  ++ "_subtract")
     = Ok (Some (NInt (a - b)))
  /\ recompute ("arithmetic_" ++ str_of_int a ++ "_" ++ str_of_int b
                  ++ "_multiply")
     = Ok (Some (NInt (a * b)))
  /\ recompute ("algebra_" ++ str_of_int a ++ "_" ++ str_of_int b)
     = (q ← int_truediv (- b) a; Ok (Some (NFloat q)))
  /\ recompute ("circle_" ++ str_of_int a)
     = (r2 ← of_int (a ^ 2); Ok (Some (NFloat (round2 (fmul math_pi r2))))).
Proof.
  intros Ha Hb.
  destruct (int_of_str_of_int a Ha) as [Ha2 Ha1].
  destruct (int_of_str_of_int b Hb) as [Hb2 Hb1].
  assert (Harith : forall op, no_underscore op = true ->
            recompute ("arithmetic_" ++ str_of_int a ++ "_" ++ str_of_int b
                         ++ "_" ++ op)
            = derive ["arithmetic"; str_of_int a; str_of_int b; op]).
  { intros op Hop. unfold recompute.
    change ("arithmetic_" ++ str_of_int a ++ "_" ++ str_of_int b ++ "_" ++ op)
      with ("arithmetic" ++ String "_" (str_of_int a ++ String "_"
              (str_of_int b ++ String "_" op))).
    rewrite split_field by reflexivity.
    rewrite split_field by exact Ha1.
    rewrite split_field by exact Hb1.
    rewrite split_no_underscore by exact Hop. reflexivity. }
  assert (Hderive : forall op,
            derive ["arithmetic"; str_of_int a; str_of_int b; op]
            = if String.eqb op "add" then Ok (Some (NInt (a + b)))
              else if String.eqb op "subtract" then Ok (Some (NInt (a - b)))
              else if String.eqb op "multiply" then Ok (Some (NInt (a * b)))
              else Raise KeyError).
  { intros op. unfold derive. cbn [part lookup list_lookup]. monad.
    change (String.eqb "arithmetic" "arithmetic") with true. cbv iota.
    rewrite Ha2, Hb2. reflexivity. }
  split; [| split; [| split; [| split]]].
  - change ("_add") with ("_" ++ "add").
    rewrite Harith, Hderive by reflexivity. reflexivity.
  - change ("_subtract") with ("_" ++ "subtract").
    rewrite Harith, Hderive by reflexivity. reflexivity.
  - change ("_multiply") with ("_" ++ "multiply").
    rewrite Harith, Hderive by reflexivity. reflexivity.
  - unfold recompute.
    change ("algebra_" ++ str_of_int a ++ "_" ++ str_of_int b)
      with ("algebra" ++ String "_" (str_of_int a ++ String "_" (str_of_int b))).
    rewrite split_field by reflexivity.
    rewrite split_field by exact Ha1.
    rewrite split_no_underscore by exact Hb1.
    unfold derive. cbn [part lookup list_lookup]. monad.
    change (String.eqb "algebra" "arithmetic") with false.
    change (String.eqb "algebra" "algebra") with true. cbv iota.
    rewrite Ha2, Hb2. reflexivity.
  - unfold recompute.
    change ("circle_" ++ str_of_int a)
      with ("circle" ++ String "_" (str_of_int a)).
    rewrite split_field by reflexivity.
    rewrite split_no_underscore by exact Ha1.
    unfold derive. cbn [part lookup list_lookup]. monad.
    change (String.eqb "circle" "arithmetic") with false.
    change (String.eqb "circle" "algebra") with false.
    change (String.eqb "circle" "circle") with true. cbv iota.
    rewrite Ha2. reflexivity.
Qed.

(** -12 and 2^64 *)
Lemma token_decodes_example :
  recompute ("arithmetic_" ++ str_of_int (-12) ++ "_"
               ++ str_of_int (2 ^ 64) ++ "_add")
  = Ok (Some (NInt (-12 + 2 ^ 64))).
Proof.
  destruct (token_decodes (-12) (2 ^ 64)) as [H _];
    [apply below_int_limit; reflexivity
    | apply below_int_limit; reflexivity |].
  exact H.
Defined.

Lemma fsub_self u : is_finite u = true -> fabs (fsub u u) = zero.
Proof.
  destruct u as [[] | s | | s m e]; try discriminate; try reflexivity.
  intros _. unfold fsub, SFsub. rewrite Z.sub_diag. reflexivity.
Qed.

(** For every token from which a correct answer is recomputed,
    submitting that answer is judged correct, provided it is a finite
    float: the tolerance test never rejects the exact answer. *)
Theorem exact_answer_judged_correct t c u :
  recompute t = Ok (Some c) ->
  to_float c = Ok u ->
  is_finite u = true ->
  validate_quiz (ValidateRequest (Some t) (Some c))
  = Json (Verdict true u (round6_num c)).
Proof.
  intros Hc Hu Hfin.
  apply validate_quiz_verdict; [exact Hu | exact Hc |].
  unfold judge. rewrite Hu. monad. rewrite fsub_self by exact Hfin.
  reflexivity.
Qed.

(** 1000000 × 1000000, outside the quiz ranges. *)
Lemma exact_answer_example :
  validate_quiz (ValidateRequest (Some "arithmetic_1000000_1000000_multiply")
                   (Some (NInt 1000000000000)))
  = Json (Verdict true (nearest_Z 1000000000000) (NInt 1000000000000)).
Proof.
  apply (exact_answer_judged_correct _ (NInt 1000000000000)); reflexivity.
Defined.

Lemma split_join sep s s2 :
  split sep (s ++ String sep s2) = (split sep s ++ split sep s2)%list.
Proof.
  induction s as [| c s IH]; cbn [append split].
  - rewrite Ascii.eqb_refl. reflexivity.
  - destruct (Ascii.eqb c sep); [rewrite IH; reflexivity |].
    rewrite IH. destruct (split_nonempty sep s) as (p & ps & ->). reflexivity.
Qed.

Lemma part_app parts extra i s :
  part parts i = Ok s -> part (parts ++ extra)%list i = Ok s.
Proof.
  unfold part. destruct (parts !! i) as [s' |] eqn:E; [| discriminate].
  intros H. rewrite (lookup_app_l_Some _ _ _ _ E). exact H.
Qed.

(** Reduce a [part] of the longer list to the same [part] of the
    shorter one, or close the goal when the shorter list has none. *)
Ltac same_part parts extra i :=
  let s := fresh "s" in
  let E := fresh "E" in
  destruct (part parts i) as [s | ?] eqn:E;
  [rewrite (part_app parts extra i s E) | discriminate].

Lemma derive_app parts extra r :
  derive parts = Ok r -> derive (parts ++ extra)%list = Ok r.
Proof.
  unfold derive. same_part parts extra 0%nat. monad.
  destruct (String.eqb s "arithmetic").
  - same_part parts extra 1%nat. destruct (int_of_str s0); [| discriminate].
    same_part parts extra 2%nat. destruct (int_of_str s1); [| discriminate].
    same_part parts extra 3%nat. auto.
  - destruct (String.eqb s "algebra").
    + same_part parts extra 1%nat. destruct (int_of_str s0); [| discriminate].
      same_part parts extra 2%nat. auto.
    + destruct (String.eqb s "circle"); [| auto].
      same_part parts extra 1%nat. auto.
Qed.

(** A token that the validator accepts is still accepted, with the
    same reply, when further fields are appended to it: the fields
    after the ones a family reads are ignored. *)
Theorem trailing_fields_ignored t junk r ans :
  recompute t = Ok r ->
  validate_quiz (ValidateRequest (Some (t ++ String "_" junk)) ans)
  = validate_quiz (ValidateRequest (Some t) ans).
Proof.
  intros Hr. unfold validate_quiz, validate_quiz_view.
  cbn [v_answer_id v_answer default from_option id].
  destruct (get_float ans 0) as [u | e]; [| reflexivity]. monad.
  unfold recompute in Hr. rewrite split_join.
  rewrite (derive_app _ _ _ Hr), Hr. reflexivity.
Qed.

Lemma trailing_fields_example :
  validate_quiz (ValidateRequest (Some "circle_2_x_y") (Some (NInt 1)))
  = validate_quiz (ValidateRequest (Some "circle_2") (Some (NInt 1))).
Proof.
  apply (trailing_fields_ignored "circle_2" "x_y"
           (Some (NFloat (round2 (fmul math_pi (nearest_Z 4)))))).
  reflexivity.
Defined.

(** A request without [answer_id] is judged like the empty token: its
    only field is the empty string, no family tag, and the reply is the
    400 "Invalid answer_id", provided the answer converts. *)
Theorem missing_answer_id_rejected ans u :
  get_float ans 0 = Ok u ->
  validate_quiz (ValidateRequest None ans)
  = JsonError 400 "Invalid answer_id" None.
Proof.
  intros Hu. unfold validate_quiz, validate_quiz_view.
  cbn [v_answer_id v_answer default from_option id]. rewrite Hu. reflexivity.
Qed.

Lemma missing_answer_id_example :
  validate_quiz (ValidateRequest None (Some (NInt 7)))
  = JsonError 400 "Invalid answer_id" None.
Proof.
  apply (missing_answer_id_rejected _ (nearest_Z 7)). reflexivity.
Defined.





End QuizMore.
